(** * Multi-class classification to bandit reduction

    A shallow embedding of [obp/dataset/multiclass.py]
    (class [MultiClassToBanditReduction]) together with the few numpy,
    scipy and scikit-learn operations the class calls.

    Conventions of the embedding.
    - Label vectors are integer arrays ([list Z]); the fancy index at the
      end of [__post_init__] is only defined for integer arrays.
    - Python floats are idealised as exact rationals ([Q]); NaN and the
      infinities, which every validator of the class rejects, have no
      counterpart.  Equalities between computed probabilities are therefore
      stated with [==] on [Q].
    - Two-dimensional arrays are lists of rows; the externally supplied
      action distribution is an [ndarray] (shape and row-major data).
    - Exceptions are values of [exn]; a call returns a [result].
    - numpy's random generator is an abstract state type with the three
      operations the code uses; the process-wide generator that
      [check_random_state(None)] returns is threaded explicitly. *)

From Stdlib Require Import List ZArith QArith Qround Qabs Lia Lqa Bool Permutation Sorted.
Import ListNotations.

Local Open Scope Z_scope.

(** ** Exceptions *)

Inductive exn : Type :=
| ValueError
| IndexError
| AttributeError
| AssertionError
| ZeroDivisionError.

Inductive result (A : Type) : Type :=
| Ok (a : A)
| Raise (e : exn).

Arguments Ok {A} a.
Arguments Raise {A} e.

Definition bind {A B : Type} (r : result A) (k : A -> result B) : result B :=
  match r with
  | Ok a => k a
  | Raise e => Raise e
  end.

Notation "x <- r ;; k" := (bind r (fun x => k))
  (at level 61, r at next level, right associativity).

Fixpoint mapM {A B : Type} (f : A -> result B) (l : list A) : result (list B) :=
  match l with
  | [] => Ok []
  | a :: t => b <- f a ;; bs <- mapM f t ;; Ok (b :: bs)
  end.

(** ** numpy and scipy on one-dimensional integer arrays *)

Module Np.

(** [np.sort]: the sorted permutation of the array. *)
Fixpoint insert (x : Z) (l : list Z) : list Z :=
  match l with
  | [] => [x]
  | v :: t => if x <=? v then x :: v :: t else v :: insert x t
  end.

Fixpoint sort (a : list Z) : list Z :=
  match a with
  | [] => []
  | x :: t => insert x (sort t)
  end.

(** [arr[1:] != arr[:-1]], walking the array with the previous element. *)
Fixpoint changes (prev : Z) (l : list Z) : list bool :=
  match l with
  | [] => []
  | x :: t => negb (x =? prev) :: changes x t
  end.

(** [np.r_[True, arr[1:] != arr[:-1]]]: marks the first occurrence of every
    value of a sorted array. *)
Definition first_occurrence (s : list Z) : list bool :=
  match s with
  | [] => []
  | x :: t => true :: changes x t
  end.

(** Boolean-mask selection [arr[mask]]. *)
Fixpoint compress (mask : list bool) (l : list Z) : list Z :=
  match mask, l with
  | b :: m, x :: t => if b then x :: compress m t else compress m t
  | _, _ => []
  end.

(** [np.unique(a)]: sort, then keep the first occurrence of every value. *)
Definition unique (a : list Z) : list Z :=
  let s := sort a in compress (first_occurrence s) s.

Fixpoint cumsum_from (acc : Z) (l : list Z) : list Z :=
  match l with
  | [] => []
  | x :: t => (acc + x) :: cumsum_from (acc + x) t
  end.

Definition cumsum (l : list Z) : list Z := cumsum_from 0 l.

(** [dense[inv[i]]] of scipy's [rankdata]: the entry of [dense] at a sorted
    position that holds the value [x].  (All positions holding [x] carry the
    same entry, so the unstable order of equal elements is irrelevant.) *)
Fixpoint at_value (x : Z) (s dense : list Z) : Z :=
  match s, dense with
  | v :: s', r :: d' => if x =? v then r else at_value x s' d'
  | _, _ => 0
  end.

(** [scipy.stats.rankdata(a, "dense")]. *)
Definition rankdata_dense (a : list Z) : list Z :=
  let s := sort a in
  let obs := first_occurrence s in
  let dense := cumsum (map (fun b : bool => if b then 1 else 0) obs) in
  map (fun x => at_value x s dense) a.

(** [np.arange(n)]. *)
Definition arange (n : nat) : list Z := map Z.of_nat (seq 0 n).

End Np.

(** Line 160: [self.y = (rankdata(y, "dense") - 1).astype(int)]. *)
Definition reindex (y : list Z) : list Z :=
  map (fun r => r - 1) (Np.rankdata_dense y).

(** ** numpy on rational arrays *)

Definition matrix : Type := list (list Q).

Definition Qlt_bool (a b : Q) : bool := negb (Qle_bool b a).

Definition of_nat (n : nat) : Q := inject_Z (Z.of_nat n).

Fixpoint qsum (l : list Q) : Q :=
  match l with
  | [] => 0%Q
  | x :: t => (x + qsum t)%Q
  end.

(** [arr.mean()]; numpy answers NaN on an empty array, which no reachable
    state produces (an evaluation partition has at least one row). *)
Definition mean (l : list Q) : Q := (qsum l / of_nat (length l))%Q.

Fixpoint qcumsum_from (acc : Q) (l : list Q) : list Q :=
  match l with
  | [] => []
  | x :: t => (acc + x)%Q :: qcumsum_from (acc + x)%Q t
  end.

(** [cdf.searchsorted(x, side='right')] on a non-decreasing array: the
    index of the first entry greater than [x]. *)
Fixpoint searchsorted_right (cdf : list Q) (x : Q) : nat :=
  match cdf with
  | [] => O
  | c :: t => if Qle_bool c x then S (searchsorted_right t x) else O
  end.

(** [np.zeros((r, c))]. *)
Definition zeros (r c : nat) : matrix := repeat (repeat 0%Q c) r.

(** [m[:, :] = v]. *)
Definition fill (v : Q) (m : matrix) : matrix := map (map (fun _ => v)) m.

Fixpoint set_nth {A : Type} (n : nat) (v : A) (l : list A) : list A :=
  match l, n with
  | [], _ => []
  | _ :: t, O => v :: t
  | x :: t, S n' => x :: set_nth n' v t
  end.

Definition set_cell (v : Q) (m : matrix) (ij : nat * nat) : matrix :=
  set_nth (fst ij) (set_nth (snd ij) v (nth (fst ij) m [])) m.

(** An integer index into an axis of length [size]: negative indices count
    from the end, anything outside [-size, size) is an [IndexError]. *)
Definition normalize_index (size : nat) (j : Z) : result nat :=
  if (0 <=? j) && (j <? Z.of_nat size) then Ok (Z.to_nat j)
  else if (- Z.of_nat size <=? j) && (j <? 0) then Ok (Z.to_nat (j + Z.of_nat size))
  else Raise IndexError.

(** Broadcasting of two one-dimensional index arrays. *)
Definition broadcast2 (a b : list Z) : result (list (Z * Z)) :=
  if Nat.eqb (length a) (length b) then Ok (combine a b)
  else match a, b with
       | [x], _ => Ok (map (fun v => (x, v)) b)
       | _, [v] => Ok (map (fun x => (x, v)) a)
       | _, _ => Raise IndexError
       end.

Definition index_pairs (nrows ncols : nat) (rows cols : list Z)
  : result (list (nat * nat)) :=
  ps <- broadcast2 rows cols ;;
  mapM (fun ij : Z * Z =>
          i <- normalize_index nrows (fst ij) ;;
          j <- normalize_index ncols (snd ij) ;;
          Ok (i, j)) ps.

(** [m[rows, cols] = v] on an array of shape [(nrows, ncols)]. *)
Definition set_cells (nrows ncols : nat) (m : matrix) (rows cols : list Z) (v : Q)
  : result matrix :=
  idx <- index_pairs nrows ncols rows cols ;;
  Ok (fold_left (set_cell v) idx m).

(** [m[rows, cols]] on an array of shape [(nrows, ncols)]. *)
Definition get_cells (nrows ncols : nat) (m : matrix) (rows cols : list Z)
  : result (list Q) :=
  idx <- index_pairs nrows ncols rows cols ;;
  Ok (map (fun ij : nat * nat => nth (snd ij) (nth (fst ij) m []) 0%Q) idx).

(** [a[idx]] with an array of row numbers. *)
Definition take {A : Type} (l : list A) (idx : list nat) : result (list A) :=
  mapM (fun i => match nth_error l i with
                 | Some a => Ok a
                 | None => Raise IndexError
                 end) idx.

(** An n-dimensional array: its shape and its entries in row-major order. *)
Record ndarray : Type := { shape : list nat; data : list Q }.

Definition ndim (a : ndarray) : nat := length (shape a).

(** [np.expand_dims(m, 2)] of an array of shape [(r, c)]. *)
Definition expand_dims (r c : nat) (m : matrix) : ndarray :=
  {| shape := [r; c; 1%nat]; data := concat m |}.

Definition slice (start len : nat) (l : list Q) : list Q :=
  firstn len (skipn start l).

(** [a[rows, cols]] on a three-dimensional array: one slice along the last
    axis per index pair. *)
Definition get_cells3 (a : ndarray) (rows cols : list Z) : result (list Q) :=
  match shape a with
  | [d0; d1; d2] =>
      idx <- index_pairs d0 d1 rows cols ;;
      Ok (flat_map (fun ij : nat * nat =>
                      slice ((fst ij * d1 + snd ij) * d2) d2 (data a)) idx)
  | _ => Raise IndexError
  end.

(** ** Python values *)

(** A number as Python passes it: [isinstance(v, float)] tells the two
    constructors apart. *)
Inductive pynum : Type :=
| PyInt (z : Z)
| PyFloat (q : Q).

(** The argument of [calc_ground_truth_policy_value]. *)
Inductive pyobj : Type :=
| PyNdarray (a : ndarray)
| PyOther.

(** ** scikit-learn *)

(** An estimator object.  [is_classifier] is sklearn's test of the same
    name; [fit_predict X_tr y_tr X_ev] stands for
    [clone(est).fit(X_tr, y_tr).predict(X_ev).astype(int)]. *)
Record Estimator : Type := {
  is_classifier : bool;
  fit_predict : matrix -> list Z -> matrix -> list Z
}.

(** [check_X_y(X, y, ensure_2d=True, multi_output=False)]. *)
Definition check_X_y (X0 : matrix) (y0 : list Z) : result (matrix * list Z) :=
  match X0 with
  | [] => Raise ValueError
  | row :: _ =>
      if Nat.eqb (length row) 0 then Raise ValueError
      else if negb (forallb (fun r => Nat.eqb (length r) (length row)) X0)
      then Raise ValueError
      else if negb (Nat.eqb (length X0) (length y0)) then Raise ValueError
      else Ok (X0, y0)
  end.

(** [_validate_shuffle_split(n_samples, test_size, train_size=None)]:
    the sizes [(n_train, n_test)]. *)
Definition validate_shuffle_split (n_samples : nat) (test_size : pynum)
  : result (nat * nat) :=
  let sizes (n_test : nat) :=
    let n_train := (n_samples - n_test)%nat in
    if Nat.eqb n_train 0 then Raise ValueError else Ok (n_train, n_test) in
  match test_size with
  | PyInt k =>
      if (Z.of_nat n_samples <=? k) || (k <=? 0) then Raise ValueError
      else sizes (Z.to_nat k)
  | PyFloat f =>
      if Qle_bool f 0 || Qle_bool 1 f then Raise ValueError
      else sizes (Z.to_nat (Qceiling (f * of_nat n_samples)))
  end.

(** ** numpy's random generator *)

Record Generator : Type := {
  RandomState : Type;
  (** [np.random.RandomState(seed)] *)
  seeded : Z -> RandomState;
  (** one draw of [random_sample()], uniform on [0, 1) *)
  random_sample : RandomState -> Q * RandomState;
  (** [permutation(n)] *)
  permutation : RandomState -> nat -> list nat * RandomState
}.

Definition valid_seed (s : Z) : bool := (0 <=? s) && (s <? 2 ^ 32).

(** The tolerance of [choice] on the sum of [p]: [sqrt(eps)] of float64. *)
Definition atol : Q := 1 # (2 ^ 26).

(** ** The class [MultiClassToBanditReduction] *)

(** The attributes [split_train_eval] assigns. *)
Record SplitState : Type := {
  X_tr : matrix;
  X_ev : matrix;
  y_tr : list Z;
  y_ev : list Z;
  y_full_ev : matrix;
  n_rounds_ev : nat
}.

(** The attributes of an instance after [__post_init__]; [split_state] is
    [None] as long as the attributes of [SplitState] do not exist. *)
Record Dataset : Type := {
  X : matrix;
  y : list Z;
  base_classifier_b : Estimator;
  alpha_b : Q;
  y_full : matrix;
  split_state : option SplitState
}.

(** Property [n_actions]: [np.unique(self.y).shape[0]]. *)
Definition n_actions (d : Dataset) : nat := length (Np.unique (y d)).

(** Property [n_rounds]: [self.y.shape[0]]. *)
Definition n_rounds (d : Dataset) : nat := length (y d).

(** Property [len_list]. *)
Definition len_list (d : Dataset) : nat := 1%nat.

(** The dictionary [obtain_batch_bandit_feedback] returns. *)
Module Feedback.
Record t : Type := {
  n_actions : nat;
  n_rounds : nat;
  context : matrix;
  action : list Z;
  reward : list Q;
  position : option (list Z);
  pscore : list Q
}.
End Feedback.

(** [__post_init__], lines 152-163.  The fancy index of line 163 is taken
    with the local [y] that [check_X_y] returned. *)
Definition post_init (X0 : matrix) (y0 : list Z) (clf : Estimator) (alpha : pynum)
  : result Dataset :=
  if negb (is_classifier clf) then Raise ValueError
  else
    match alpha with
    | PyInt _ => Raise ValueError
    | PyFloat a =>
        if negb (Qle_bool 0 a && Qlt_bool a 1) then Raise ValueError
        else
          Xy <- check_X_y X0 y0 ;;
          let y1 := snd Xy in
          let self_y := reindex y1 in
          let rounds := length self_y in
          let actions := length (Np.unique self_y) in
          full <- set_cells rounds actions (zeros rounds actions)
                            (Np.arange rounds) y1 1%Q ;;
          Ok {| X := fst Xy; y := self_y; base_classifier_b := clf;
                alpha_b := a; y_full := full; split_state := None |}
    end.

(** Lines 236-240 and 297-301: the uniform mass everywhere, then the
    predicted action's cell of every row. *)
Definition mixed_policy (rounds actions : nat) (alpha : Q) (preds : list Z)
  : result matrix :=
  if Nat.eqb actions 0 then Raise ZeroDivisionError
  else
    let uniform := ((1 - alpha) / of_nat actions)%Q in
    let pi := fill uniform (zeros rounds actions) in
    set_cells rounds actions pi (Np.arange rounds) preds (alpha + uniform)%Q.

(** [pi_b] of [obtain_batch_bandit_feedback], lines 232-240. *)
Definition behavior_policy (d : Dataset) (s : SplitState) : result matrix :=
  let preds := fit_predict (base_classifier_b d) (X_tr s) (y_tr s) (X_ev s) in
  mixed_policy (n_rounds_ev s) (n_actions d) (alpha_b d) preds.

(** [pi_e] of [obtain_action_dist_by_eval_policy], lines 294-301. *)
Definition evaluation_policy (d : Dataset) (s : SplitState) (clf : Estimator)
  (alpha_e : Q) : result matrix :=
  let preds := fit_predict clf (X_tr s) (y_tr s) (X_ev s) in
  mixed_policy (n_rounds_ev s) (n_actions d) alpha_e preds.

(** [obtain_action_dist_by_eval_policy], lines 282-302. *)
Definition obtain_action_dist_by_eval_policy (d : Dataset)
  (base_classifier_e : option Estimator) (alpha_e : pynum) : result ndarray :=
  match alpha_e with
  | PyInt _ => Raise ValueError
  | PyFloat a =>
      if negb (Qle_bool 0 a && Qle_bool a 1) then Raise ValueError
      else
        clf <- match base_classifier_e with
               | None => Ok (base_classifier_b d)
               | Some c => if is_classifier c then Ok c else Raise AssertionError
               end ;;
        match split_state d with
        | None => Raise AttributeError
        | Some s =>
            pi_e <- evaluation_policy d s clf a ;;
            Ok (expand_dims (n_rounds_ev s) (n_actions d) pi_e)
        end
  end.

(** [calc_ground_truth_policy_value], lines 321-327. *)
Definition calc_ground_truth_policy_value (d : Dataset) (action_dist : pyobj)
  : result Q :=
  match action_dist with
  | PyOther => Raise ValueError
  | PyNdarray a =>
      if negb (Nat.eqb (ndim a) 3) then Raise ValueError
      else
        match split_state d with
        | None => Raise AttributeError
        | Some s =>
            if negb (Nat.eqb (hd O (shape a)) (n_rounds_ev s)) then Raise ValueError
            else
              vals <- get_cells3 a (Np.arange (n_rounds_ev s)) (y_ev s) ;;
              Ok (mean vals)
        end
  end.

(** [sklearn.metrics.accuracy_score(y_true, y_pred)]. *)
Definition accuracy_score (y_true y_pred : list Z) : Q :=
  mean (map (fun tp : Z * Z => if fst tp =? snd tp then 1%Q else 0%Q)
            (combine y_true y_pred)).

Section Randomized.

Variable G : Generator.

Local Abbreviation rng := (RandomState G).

(** [check_random_state(random_state)] followed by [body]: an integer seed
    builds a private generator, [None] hands out the process-wide one, whose
    state [body] then advances. *)
Definition with_random_state {A : Type} (random_state : option Z) (g : rng)
  (body : rng -> result A * rng) : result A * rng :=
  match random_state with
  | None => body g
  | Some s =>
      if valid_seed s then (fst (body (seeded G s)), g)
      else (Raise ValueError, g)
  end.

(** [random_.choice(np.arange(n), p=p, replace=False)] with [size=None]. *)
Definition choice (n : nat) (p : list Q) (r : rng) : result Z * rng :=
  if Nat.eqb n 0 then (Raise ValueError, r)
  else if negb (Nat.eqb (length p) n) then (Raise ValueError, r)
  else if existsb (fun x => Qlt_bool x 0) p then (Raise ValueError, r)
  else if Qlt_bool atol (Qabs (qsum p - 1)) then (Raise ValueError, r)
  else if Nat.ltb (length (filter (fun x => Qlt_bool 0 x) p)) 1
  then (Raise ValueError, r)
  else
    let (x, r') := random_sample G r in
    let cdf := qcumsum_from 0 p in
    let cdf := map (fun c => (c / last cdf 0)%Q) cdf in
    let idx := searchsorted_right cdf x in
    if Nat.ltb idx n then (Ok (Z.of_nat idx), r') else (Raise IndexError, r').

(** Lines 242-246: one draw per row of [pi_b], in row order. *)
Fixpoint sample_actions (actions : nat) (pi_b : matrix) (r : rng)
  : result (list Z) * rng :=
  match pi_b with
  | [] => (Ok [], r)
  | p :: rest =>
      match choice actions p r with
      | (Raise e, r') => (Raise e, r')
      | (Ok a, r') =>
          match sample_actions actions rest r' with
          | (Raise e, r'') => (Raise e, r'')
          | (Ok l, r'') => (Ok (a :: l), r'')
          end
      end
  end.

(** [split_train_eval], lines 197-207, with sklearn's [train_test_split]
    (shuffle, no stratification) unfolded. *)
Definition split_train_eval (d : Dataset) (eval_size : pynum)
  (random_state : option Z) (g : rng) : result Dataset * rng :=
  match validate_shuffle_split (length (X d)) eval_size with
  | Raise e => (Raise e, g)
  | Ok (n_train, n_test) =>
      with_random_state random_state g (fun r =>
        let (perm, r') := permutation G r (length (X d)) in
        let ind_test := firstn n_test perm in
        let ind_train := firstn n_train (skipn n_test perm) in
        (xtr <- take (X d) ind_train ;;
         xev <- take (X d) ind_test ;;
         ytr <- take (y d) ind_train ;;
         yev <- take (y d) ind_test ;;
         fev <- take (y_full d) ind_test ;;
         Ok {| X := X d; y := y d; base_classifier_b := base_classifier_b d;
               alpha_b := alpha_b d; y_full := y_full d;
               split_state :=
                 Some {| X_tr := xtr; X_ev := xev; y_tr := ytr; y_ev := yev;
                         y_full_ev := fev; n_rounds_ev := length xev |} |},
         r'))
  end.

(** Lines 241-257 once [pi_b] is built. *)
Definition sample_feedback (d : Dataset) (s : SplitState) (pi_b : matrix) (r : rng)
  : result Feedback.t * rng :=
  match sample_actions (n_actions d) pi_b r with
  | (Raise e, r') => (Raise e, r')
  | (Ok act, r') =>
      (rew <- get_cells (n_rounds_ev s) (n_actions d) (y_full_ev s)
                        (Np.arange (n_rounds_ev s)) act ;;
       ps <- get_cells (n_rounds_ev s) (n_actions d) pi_b
                       (Np.arange (n_rounds_ev s)) act ;;
       Ok {| Feedback.n_actions := n_actions d;
             Feedback.n_rounds := n_rounds_ev s;
             Feedback.context := X_ev s;
             Feedback.action := act;
             Feedback.reward := rew;
             Feedback.position := None;
             Feedback.pscore := ps |},
       r')
  end.

(** [obtain_batch_bandit_feedback], lines 230-257. *)
Definition obtain_batch_bandit_feedback (d : Dataset) (random_state : option Z)
  (g : rng) : result Feedback.t * rng :=
  with_random_state random_state g (fun r =>
    match split_state d with
    | None => (Raise AttributeError, r)
    | Some s =>
        match behavior_policy d s with
        | Raise e => (Raise e, r)
        | Ok pi_b => sample_feedback d s pi_b r
        end
    end).

End Randomized.

Arguments with_random_state {G A}.
Arguments choice {G}.
Arguments sample_actions {G}.
Arguments split_train_eval {G}.
Arguments sample_feedback {G}.
Arguments obtain_batch_bandit_feedback {G}.

(** A small concrete generator and two classifiers, used to run the model
    on concrete data. *)
Definition lcg_next (r : Z) : Z := (r * 75 + 74) mod 65537.

Definition lcg : Generator :=
  {| RandomState := Z;
     seeded := fun s => s mod 65537;
     random_sample := fun r => (lcg_next r # 65537, lcg_next r);
     permutation := fun r n =>
       (let k := Z.to_nat (lcg_next r mod Z.of_nat (Nat.max n 1)) in
        skipn k (seq 0 n) ++ firstn k (seq 0 n), lcg_next r) |}.

(** Predicts the first training label for every row. *)
Definition first_label_classifier : Estimator :=
  {| is_classifier := true;
     fit_predict := fun _ ytr xev => map (fun _ => hd 0 ytr) xev |}.

(** An object that is not a classifier. *)
Definition not_a_classifier : Estimator :=
  {| is_classifier := false;
     fit_predict := fun _ _ xev => map (fun _ => 0) xev |}.
(** ** Contracts and reachable states *)

(** The contract of a scikit-learn classifier on a split: one prediction
    per evaluation row, each one a label seen in training. *)
Definition predicts_training_labels (clf : Estimator) (s : SplitState) : Prop :=
  length (fit_predict clf (X_tr s) (y_tr s) (X_ev s)) = length (X_ev s) /\
  Forall (fun p => In p (y_tr s)) (fit_predict clf (X_tr s) (y_tr s) (X_ev s)).

(** The contract of [random_sample]: a draw lies in [0, 1). *)
Definition uniform_draws (G : Generator) : Prop :=
  forall r, (0 <= fst (random_sample G r) < 1)%Q.

(** The states of an instance: constructed, then split any number of
    times. *)
Inductive reachable (G : Generator) : Dataset -> Prop :=
| reach_init X0 y0 clf alpha d :
    post_init X0 y0 clf alpha = Ok d -> reachable G d
| reach_split d eval_size random_state (g : RandomState G) d' g' :
    reachable G d ->
    split_train_eval d eval_size random_state g = (Ok d', g') ->
    reachable G d'.

(** What every reachable state satisfies. *)
Definition dataset_invariant (d : Dataset) : Prop :=
  y d <> [] /\
  (0 <= alpha_b d < 1)%Q /\
  (forall v, In v (y d) <-> 0 <= v < Z.of_nat (n_actions d)) /\
  match split_state d with
  | None => True
  | Some s =>
      n_rounds_ev s = length (X_ev s) /\
      length (y_ev s) = n_rounds_ev s /\
      length (y_full_ev s) = n_rounds_ev s /\
      Forall (fun v => In v (y d)) (y_tr s) /\
      Forall (fun v => In v (y d)) (y_ev s)
  end.

(** The row that mixes the deterministic choice [pred], with weight
    [alpha], and the uniform policy over [c] actions. *)
Definition is_mixed_row (c : nat) (alpha : Q) (pred : Z) (row : list Q) : Prop :=
  length row = c /\
  forall a, (a < c)%nat ->
    nth a row 0%Q = if Z.of_nat a =? pred
                    then (alpha + (1 - alpha) / of_nat c)%Q
                    else ((1 - alpha) / of_nat c)%Q.

(** A [random_state] argument that [check_random_state] accepts. *)
Definition usable_seed (random_state : option Z) : Prop :=
  match random_state with
  | None => True
  | Some s => valid_seed s = true
  end.

(** The three sequences of a sampling result that depend on the draws. *)
Definition sampled (r : result Feedback.t) : result (list Z * list Q * list Q) :=
  fb <- r ;; Ok (Feedback.action fb, Feedback.reward fb, Feedback.pscore fb).

(** ** Concrete data *)

(** Four samples with one feature each. *)
Definition four_rows : matrix := [[0%Q]; [1%Q]; [2%Q]; [3%Q]].

(** The instance built from [four_rows] with the labels [0, 1, 0, 1] and
    [alpha_b = 0.8]. *)
Definition example_constructed : Dataset :=
  {| X := four_rows; y := [0; 1; 0; 1];
     base_classifier_b := first_label_classifier; alpha_b := 4 # 5;
     y_full := [[1%Q; 0%Q]; [0%Q; 1%Q]; [1%Q; 0%Q]; [0%Q; 1%Q]];
     split_state := None |}.

(** Its split with [eval_size=2] under the generator [lcg] seeded with 7:
    rows 1 and 2 train, rows 3 and 0 evaluate. *)
Definition example_split : SplitState :=
  {| X_tr := [[1%Q]; [2%Q]]; X_ev := [[3%Q]; [0%Q]];
     y_tr := [1; 0]; y_ev := [1; 0];
     y_full_ev := [[0%Q; 1%Q]; [1%Q; 0%Q]]; n_rounds_ev := 2 |}.

Definition example_dataset : Dataset :=
  {| X := X example_constructed; y := y example_constructed;
     base_classifier_b := first_label_classifier; alpha_b := 4 # 5;
     y_full := y_full example_constructed;
     split_state := Some example_split |}.

(** An array of shape [(2, 2, 2)]: two list positions per action. *)
Definition two_positions : ndarray :=
  {| shape := [2; 2; 2]%nat;
     data := [1 # 2; 1 # 2; 1 # 2; 1 # 2; 1 # 2; 1 # 2; 1 # 2; 1 # 2] |}.

(** Two samples with one feature each. *)
Definition two_rows : matrix := [[0%Q]; [1%Q]].

(** Labels that are not their own dense ranks. *)
Definition signed_labels : list Z := [-1; 0; -1; 0].

(** The instance built from [four_rows] with [signed_labels], its split
    with [eval_size=2] under [lcg] seeded with 7, and the feedback sampled
    from it under [lcg] seeded with 3. *)
Definition signed_constructed : Dataset :=
  {| X := four_rows; y := [0; 1; 0; 1];
     base_classifier_b := first_label_classifier; alpha_b := 4 # 5;
     y_full := [[0%Q; 1%Q]; [1%Q; 0%Q]; [0%Q; 1%Q]; [1%Q; 0%Q]];
     split_state := None |}.

Definition signed_split : SplitState :=
  {| X_tr := [[1%Q]; [2%Q]]; X_ev := [[3%Q]; [0%Q]];
     y_tr := [1; 0]; y_ev := [1; 0];
     y_full_ev := [[1%Q; 0%Q]; [0%Q; 1%Q]]; n_rounds_ev := 2 |}.

Definition signed_dataset : Dataset :=
  {| X := four_rows; y := [0; 1; 0; 1];
     base_classifier_b := first_label_classifier; alpha_b := 4 # 5;
     y_full := [[0%Q; 1%Q]; [1%Q; 0%Q]; [0%Q; 1%Q]; [1%Q; 0%Q]];
     split_state := Some signed_split |}.

Definition signed_feedback : Feedback.t :=
  {| Feedback.n_actions := 2; Feedback.n_rounds := 2;
     Feedback.context := [[3%Q]; [0%Q]];
     Feedback.action := [0; 1];
     Feedback.reward := [1%Q; 1%Q];
     Feedback.position := None;
     Feedback.pscore := [1 # 10; 45 # 50] |}.

(** ** Further contracts and predicates *)

(** The contract of [permutation]: a rearrangement of [0 .. n-1]. *)
Definition shuffles (G : Generator) : Prop :=
  forall r n, Permutation (fst (permutation G r n)) (seq 0 n).

(** The generator state after [n] draws of [random_sample]. *)
Fixpoint after_draws (G : Generator) (n : nat) (r : RandomState G)
  : RandomState G :=
  match n with
  | O => r
  | S n' => after_draws G n' (snd (random_sample G r))
  end.

(** A row of [c] entries that holds one 1 and zeros elsewhere. *)
Definition one_hot (c : nat) (row : list Q) : Prop :=
  length row = c /\
  exists j, (j < c)%nat /\
    forall a, (a < c)%nat -> nth a row 0%Q = if Nat.eqb a j then 1%Q else 0%Q.

(** The values of [eval_size] that leave both partitions non-empty. *)
Definition eval_size_ok (n : nat) (eval_size : pynum) : Prop :=
  match eval_size with
  | PyInt k => 0 < k < Z.of_nat n
  | PyFloat f => (0 < f)%Q /\ (f < 1)%Q /\ Qceiling (f * of_nat n) < Z.of_nat n
  end.

(** The size of the evaluation partition [eval_size] asks for. *)
Definition requested_eval_rows (n : nat) (eval_size : pynum) : nat :=
  match eval_size with
  | PyInt k => Z.to_nat k
  | PyFloat f => Z.to_nat (Qceiling (f * of_nat n))
  end.

(** [example_split] with its two evaluation rows in the other order. *)
Definition swapped_split : SplitState :=
  {| X_tr := [[1%Q]; [2%Q]]; X_ev := [[0%Q]; [3%Q]];
     y_tr := [1; 0]; y_ev := [0; 1];
     y_full_ev := [[1%Q; 0%Q]; [0%Q; 1%Q]]; n_rounds_ev := 2 |}.

(** An action distribution for two evaluation rows and two actions. *)
Definition two_rows_distribution : ndarray :=
  {| shape := [2; 2; 1]%nat; data := [1 # 4; 3 # 4; 1%Q; 0%Q] |}.

(** * Proofs *)

(** ** The model on small inputs *)

Example reindex_by_value_not_by_appearance :
  reindex [30; 10; 20; 10; 30] = [2; 0; 1; 0; 2].
Proof. reflexivity. Qed.

Example unique_sorts_and_deduplicates :
  Np.unique [30; 10; 20; 10; 30] = [10; 20; 30].
Proof. reflexivity. Qed.

Example negative_index_counts_from_the_end :
  normalize_index 3 (-1) = Ok 2%nat /\ normalize_index 3 3 = Raise IndexError.
Proof. split; reflexivity. Qed.

Example non_classifier_is_rejected :
  post_init four_rows [0; 1; 0; 1] not_a_classifier (PyFloat (4 # 5))
  = Raise ValueError.
Proof. reflexivity. Qed.

Example alpha_b_one_is_rejected :
  post_init four_rows [0; 1; 0; 1] first_label_classifier (PyFloat 1)
  = Raise ValueError.
Proof. reflexivity. Qed.

Example fraction_eval_size_rounds_up :
  validate_shuffle_split 4 (PyFloat (3 # 10)) = Ok (2%nat, 2%nat).
Proof. reflexivity. Qed.

(** ** Sorting, distinct values and dense ranks *)

Lemma insert_perm (x : Z) (l : list Z) : Permutation (x :: l) (Np.insert x l).
Proof.
  induction l as [|v t IH]; simpl; [reflexivity|].
  destruct (x <=? v); [reflexivity|].
  etransitivity; [apply perm_swap | apply perm_skip, IH].
Qed.

Lemma sort_perm (a : list Z) : Permutation a (Np.sort a).
Proof.
  induction a as [|x t IH]; simpl; [constructor|].
  etransitivity; [apply perm_skip, IH | apply insert_perm].
Qed.

Lemma sort_In (a : list Z) (x : Z) : In x (Np.sort a) <-> In x a.
Proof.
  split; apply Permutation_in; [symmetry|]; apply sort_perm.
Qed.

Lemma insert_sorted (x : Z) (l : list Z) :
  StronglySorted Z.le l -> StronglySorted Z.le (Np.insert x l).
Proof.
  induction 1 as [|v t Hs IH Hv]; simpl.
  - repeat constructor.
  - destruct (x <=? v) eqn:E.
    + apply Z.leb_le in E. constructor.
      * now constructor.
      * constructor; [exact E|].
        eapply Forall_impl; [|exact Hv]. intros; lia.
    + apply Z.leb_gt in E. constructor; [exact IH|].
      apply Forall_forall. intros z Hz.
      apply (Permutation_in _ (Permutation_sym (insert_perm x t))) in Hz.
      destruct Hz as [<-|Hz]; [lia|].
      rewrite Forall_forall in Hv. now apply Hv.
Qed.

Lemma sort_sorted (a : list Z) : StronglySorted Z.le (Np.sort a).
Proof.
  induction a; simpl; [constructor | now apply insert_sorted].
Qed.

Lemma first_occurrence_changes (s : list Z) :
  Np.first_occurrence s = Np.changes (hd 0 s - 1) s.
Proof.
  destruct s as [|v t]; simpl; [reflexivity|].
  replace (v =? v - 1) with false by (symmetry; apply Z.eqb_neq; lia).
  reflexivity.
Qed.

(** The values kept by the mask of a sorted array: every value other than
    the one that precedes the array, each once. *)
Lemma compress_changes (t : list Z) : forall prev,
  StronglySorted Z.le t -> Forall (Z.le prev) t ->
  NoDup (Np.compress (Np.changes prev t) t) /\
  forall x, In x (Np.compress (Np.changes prev t) t) <-> In x t /\ x <> prev.
Proof.
  induction t as [|v t IH]; intros prev Hs Hp; simpl.
  - split; [constructor | tauto].
  - inversion Hs as [|? ? Hs' Hv]; subst.
    inversion Hp as [|? ? Hpv Hp']; subst.
    destruct (IH v Hs' Hv) as [Hnd Hin].
    rewrite Forall_forall in Hv.
    destruct (Z.eqb_spec v prev) as [->|Hne]; simpl.
    + split; [exact Hnd|]. intros x. rewrite Hin. intuition congruence.
    + split.
      * constructor; [|exact Hnd]. rewrite Hin. intuition congruence.
      * intros x. simpl. rewrite Hin. split.
        -- intros [<-|[Hx Hxv]]; [tauto|].
           split; [tauto|]. specialize (Hv _ Hx). lia.
        -- intros [[<-|Hx] Hxp]; [tauto|].
           destruct (Z.eq_dec x v) as [->|]; tauto.
Qed.

Lemma unique_NoDup (a : list Z) : NoDup (Np.unique a).
Proof.
  unfold Np.unique. rewrite first_occurrence_changes.
  apply compress_changes; [apply sort_sorted|].
  destruct (sort_sorted a); simpl; constructor; [lia|].
  eapply Forall_impl; [|eassumption]. intros; lia.
Qed.

Lemma sorted_above_pred_hd (s : list Z) :
  StronglySorted Z.le s -> Forall (Z.lt (hd 0 s - 1)) s.
Proof.
  destruct 1; simpl; constructor; [lia|].
  eapply Forall_impl; [|eassumption]. intros; simpl in *; lia.
Qed.

Lemma unique_In (a : list Z) (x : Z) : In x (Np.unique a) <-> In x a.
Proof.
  unfold Np.unique. rewrite first_occurrence_changes.
  pose proof (sort_sorted a) as Hs.
  pose proof (sorted_above_pred_hd _ Hs) as Hlt.
  rewrite (proj2 (compress_changes _ (hd 0 (Np.sort a) - 1) Hs
             (Forall_impl _ (fun z => Z.lt_le_incl _ z) Hlt))).
  rewrite sort_In. split; [tauto|]. intros Hx. split; [exact Hx|].
  rewrite Forall_forall in Hlt. apply sort_In in Hx. specialize (Hlt _ Hx). lia.
Qed.

(** [np.unique] has as many entries as the array has distinct values. *)
Lemma unique_length_nodup (a : list Z) :
  length (Np.unique a) = length (nodup Z.eq_dec a).
Proof.
  apply Permutation_length, NoDup_Permutation.
  - apply unique_NoDup.
  - apply NoDup_nodup.
  - intros x. rewrite unique_In, nodup_In. tauto.
Qed.

Local Abbreviation b2z := (fun b : bool => if b then 1 else 0).

(** The walk of [rankdata] over a sorted array that follows the value
    [prev], the running count standing at [acc]. *)
Lemma dense_walk (t : list Z) : forall prev acc,
  StronglySorted Z.le t -> Forall (Z.le prev) t ->
  (forall x, In x t ->
     (x = prev ->
      Np.at_value x t (Np.cumsum_from acc (map b2z (Np.changes prev t))) = acc) /\
     (prev < x ->
      acc < Np.at_value x t (Np.cumsum_from acc (map b2z (Np.changes prev t)))
          <= acc + Z.of_nat (length (Np.compress (Np.changes prev t) t)))) /\
  (forall x x', In x t -> In x' t -> x < x' ->
     Np.at_value x t (Np.cumsum_from acc (map b2z (Np.changes prev t)))
     < Np.at_value x' t (Np.cumsum_from acc (map b2z (Np.changes prev t)))) /\
  (forall r, acc < r <= acc + Z.of_nat (length (Np.compress (Np.changes prev t) t)) ->
     exists x, In x t /\ prev < x /\
       Np.at_value x t (Np.cumsum_from acc (map b2z (Np.changes prev t))) = r).
Proof.
  induction t as [|v t IH]; intros prev acc Hs Hp.
  - simpl. repeat split; try contradiction. intros r Hr; lia.
  - inversion Hs as [|? ? Hs' Hv]; subst.
    inversion Hp as [|? ? Hpv Hp']; subst.
    set (b := if negb (v =? prev) then 1 else 0).
    assert (Hb : (v = prev /\ b = 0) \/ (prev < v /\ b = 1)).
    { unfold b. destruct (Z.eqb_spec v prev); simpl; [left|right]; lia. }
    destruct (IH v (acc + b) Hs' Hv) as (IH1 & IH2 & IH3).
    assert (Hcount : Z.of_nat (length (Np.compress (Np.changes prev (v :: t)) (v :: t)))
                     = b + Z.of_nat (length (Np.compress (Np.changes v t) t))).
    { simpl. unfold b. destruct (negb (v =? prev)); simpl length; lia. }
    rewrite Hcount. simpl Np.changes. simpl map. simpl Np.cumsum_from.
    fold b.
    assert (Hat : forall x,
      Np.at_value x (v :: t) ((acc + b) :: Np.cumsum_from (acc + b) (map b2z (Np.changes v t)))
      = if x =? v then acc + b
        else Np.at_value x t (Np.cumsum_from (acc + b) (map b2z (Np.changes v t)))).
    { reflexivity. }
    rewrite Forall_forall in Hv.
    assert (Htail : forall x, In x (v :: t) -> x <> v -> In x t /\ v < x).
    { intros x [->|Hx] Hne; [congruence|]. split; [exact Hx|].
      specialize (Hv _ Hx). lia. }
    split; [|split].
    + intros x Hx. rewrite Hat. destruct (Z.eqb_spec x v) as [->|Hne].
      * split; intros; lia.
      * destruct (Htail x Hx Hne) as [Hxt Hvx].
        destruct (IH1 x Hxt) as [_ Hr]. specialize (Hr Hvx).
        split; intros; lia.
    + intros x x' Hx Hx' Hlt. rewrite !Hat.
      assert (Hne' : x' <> v).
      { destruct Hx as [<-|Hx]; [lia|]. specialize (Hv _ Hx). lia. }
      destruct (Htail x' Hx' Hne') as [Hxt' Hvx'].
      destruct (Z.eqb_spec x' v) as [|_]; [contradiction|].
      destruct (Z.eqb_spec x v) as [->|Hne].
      * destruct (IH1 x' Hxt') as [_ Hr]. specialize (Hr Hvx'). lia.
      * destruct (Htail x Hx Hne) as [Hxt Hvx]. now apply IH2.
    + intros r Hr.
      destruct (Z.eq_dec r (acc + b)) as [->|Hrne].
      * exists v. rewrite Hat, Z.eqb_refl. repeat split; [now left | lia].
      * destruct (IH3 r) as (x & Hxt & Hvx & Hxr); [lia|].
        exists x. rewrite Hat.
        destruct (Z.eqb_spec x v) as [->|_]; [lia|].
        repeat split; [now right | lia | exact Hxr].
Qed.

Lemma rankdata_dense_spec (a : list Z) :
  let rank x := Np.at_value x (Np.sort a)
                  (Np.cumsum (map b2z (Np.first_occurrence (Np.sort a)))) in
  Np.rankdata_dense a = map rank a /\
  (forall x, In x a -> 1 <= rank x <= Z.of_nat (length (Np.unique a))) /\
  (forall x x', In x a -> In x' a -> x < x' -> rank x < rank x') /\
  (forall r, 1 <= r <= Z.of_nat (length (Np.unique a)) ->
     exists x, In x a /\ rank x = r).
Proof.
  intros rank. subst rank. unfold Np.unique, Np.cumsum.
  rewrite first_occurrence_changes.
  pose proof (sort_sorted a) as Hs.
  pose proof (sorted_above_pred_hd _ Hs) as Hlt.
  destruct (dense_walk _ (hd 0 (Np.sort a) - 1) 0 Hs
              (Forall_impl _ (fun z => Z.lt_le_incl _ z) Hlt)) as (W1 & W2 & W3).
  rewrite Forall_forall in Hlt.
  split; [|split; [|split]].
  - unfold Np.rankdata_dense, Np.cumsum. now rewrite first_occurrence_changes.
  - intros x Hx. apply sort_In in Hx.
    destruct (W1 x Hx) as [_ Hr]. specialize (Hr (Hlt _ Hx)). lia.
  - intros x x' Hx Hx' Hxx. apply W2; [now apply sort_In..|exact Hxx].
  - intros r Hr. destruct (W3 r) as (x & Hx & _ & Hxr); [lia|].
    exists x. split; [now apply sort_In | exact Hxr].
Qed.

Lemma arange_In (n : nat) (v : Z) : In v (Np.arange n) <-> 0 <= v < Z.of_nat n.
Proof.
  unfold Np.arange. rewrite in_map_iff. split.
  - intros (i & <- & Hi). apply in_seq in Hi. lia.
  - intros Hv. exists (Z.to_nat v). rewrite in_seq. lia.
Qed.

Lemma arange_NoDup (n : nat) : NoDup (Np.arange n).
Proof.
  apply Finite.Injective_map_NoDup; [|apply seq_NoDup].
  intros a b. lia.
Qed.

Lemma arange_length (n : nat) : length (Np.arange n) = n.
Proof. unfold Np.arange. now rewrite length_map, length_seq. Qed.

Lemma initial_segment_length (l : list Z) (k : nat) :
  NoDup l -> (forall v, In v l <-> 0 <= v < Z.of_nat k) -> length l = k.
Proof.
  intros Hnd Hin. rewrite <- (arange_length k).
  apply Permutation_length, NoDup_Permutation;
    [exact Hnd | apply arange_NoDup |].
  intros v. now rewrite Hin, arange_In.
Qed.

Lemma reindex_values (labels : list Z) (v : Z) :
  In v (reindex labels) <-> 0 <= v < Z.of_nat (length (Np.unique labels)).
Proof.
  destruct (rankdata_dense_spec labels) as (Heq & Hrange & _ & Honto).
  unfold reindex. rewrite Heq, map_map, in_map_iff. split.
  - intros (x & <- & Hx). specialize (Hrange x Hx). lia.
  - intros Hv. destruct (Honto (v + 1)) as (x & Hx & Hr); [lia|].
    exists x. split; [lia | exact Hx].
Qed.

Lemma reindex_length (labels : list Z) : length (reindex labels) = length labels.
Proof. unfold reindex, Np.rankdata_dense. now rewrite !length_map. Qed.

(** Re-indexing keeps the number of distinct values. *)
Lemma unique_reindex_length (labels : list Z) :
  length (Np.unique (reindex labels)) = length (Np.unique labels).
Proof.
  apply initial_segment_length; [apply unique_NoDup|].
  intros v. rewrite unique_In. apply reindex_values.
Qed.

Lemma reindex_nth (labels : list Z) (i : nat) :
  (i < length labels)%nat ->
  nth i (reindex labels) 0
  = Np.at_value (nth i labels 0) (Np.sort labels)
      (Np.cumsum (map b2z (Np.first_occurrence (Np.sort labels)))) - 1.
Proof.
  intros Hi. destruct (rankdata_dense_spec labels) as (Heq & _).
  unfold reindex. rewrite Heq, map_map.
  set (f := fun x : Z => _ - 1).
  rewrite (nth_indep _ 0 (f 0)) by (now rewrite length_map).
  now rewrite map_nth.
Qed.

(** What a successful [__post_init__] has checked and stored. *)
Lemma post_init_Ok (X0 : matrix) (y0 : list Z) (clf : Estimator) (alpha : pynum)
  (d : Dataset) :
  post_init X0 y0 clf alpha = Ok d ->
  exists a full,
    alpha = PyFloat a /\ is_classifier clf = true /\
    Qle_bool 0 a = true /\ Qlt_bool a 1 = true /\
    check_X_y X0 y0 = Ok (X0, y0) /\
    set_cells (length (reindex y0)) (length (Np.unique (reindex y0)))
      (zeros (length (reindex y0)) (length (Np.unique (reindex y0))))
      (Np.arange (length (reindex y0))) y0 1%Q = Ok full /\
    d = {| X := X0; y := reindex y0; base_classifier_b := clf; alpha_b := a;
           y_full := full; split_state := None |}.
Proof.
  unfold post_init. destruct (is_classifier clf) eqn:Hclf; simpl; [|discriminate].
  destruct alpha as [z|a]; [discriminate|].
  destruct (Qle_bool 0 a) eqn:Hlo; simpl; [|discriminate].
  destruct (Qlt_bool a 1) eqn:Hhi; simpl; [|discriminate].
  assert (Hc : forall r, check_X_y X0 y0 = Ok r -> r = (X0, y0)).
  { unfold check_X_y. destruct X0 as [|row rest]; [discriminate|].
    destruct (Nat.eqb (length row) 0); [discriminate|].
    destruct (negb (forallb _ _)); [discriminate|].
    destruct (negb (Nat.eqb _ _)); [discriminate|]. now intros r [= <-]. }
  destruct (check_X_y X0 y0) as [r|e] eqn:E; simpl; [|discriminate].
  rewrite (Hc r eq_refl). simpl.
  destruct (set_cells _ _ _ _ _ _) as [full|e] eqn:F; simpl; [|discriminate].
  intros [= <-]. exists a, full. repeat split; auto.
Qed.

(** C5: the re-indexed labels take exactly the values [0 .. k-1], [k] the
    number of distinct labels; the re-indexing is strictly increasing in the
    label value, so equal labels get equal indices whatever their position;
    a successful construction stores this vector and counts [k] actions. *)
Theorem reindex_dense_and_monotone (labels : list Z) :
  let k := length (nodup Z.eq_dec labels) in
  length (reindex labels) = length labels /\
  (forall v, In v (reindex labels) <-> 0 <= v < Z.of_nat k) /\
  (forall i j, (i < length labels)%nat -> (j < length labels)%nat ->
     (nth i labels 0 < nth j labels 0 ->
      nth i (reindex labels) 0 < nth j (reindex labels) 0) /\
     (nth i labels 0 = nth j labels 0 ->
      nth i (reindex labels) 0 = nth j (reindex labels) 0)) /\
  (forall X0 clf alpha d, post_init X0 labels clf alpha = Ok d ->
     y d = reindex labels /\ n_actions d = k).
Proof.
  intros k. subst k. rewrite <- unique_length_nodup.
  split; [apply reindex_length|].
  split; [apply reindex_values|].
  split.
  - intros i j Hi Hj. rewrite !reindex_nth by assumption.
    destruct (rankdata_dense_spec labels) as (_ & _ & Hmono & _).
    split.
    + intros Hlt.
      pose proof (Hmono _ _ (nth_In _ 0 Hi) (nth_In _ 0 Hj) Hlt). lia.
    + intros ->. reflexivity.
  - intros X0 clf alpha d Hd.
    apply post_init_Ok in Hd. destruct Hd as (a & full & _ & _ & _ & _ & _ & _ & ->).
    unfold n_actions. simpl. split; [reflexivity | apply unique_reindex_length].
Qed.

(** ** Fancy indexing *)

Lemma mapM_Ok_length {A B : Type} (f : A -> result B) (l : list A) (r : list B) :
  mapM f l = Ok r -> length r = length l.
Proof.
  revert r. induction l as [|a t IH]; simpl; intros r.
  - now intros [= <-].
  - destruct (f a); simpl; [|discriminate].
    destruct (mapM f t); simpl; [|discriminate].
    intros [= <-]. simpl. now rewrite (IH _ eq_refl).
Qed.

Lemma mapM_Ok_nth {A B : Type} (f : A -> result B) (l : list A) (r : list B)
  (da : A) (db : B) (i : nat) :
  mapM f l = Ok r -> (i < length l)%nat -> f (nth i l da) = Ok (nth i r db).
Proof.
  revert r i. induction l as [|a t IH]; simpl; intros r i; [lia|].
  destruct (f a) eqn:Fa; simpl; [|discriminate].
  destruct (mapM f t); simpl; [|discriminate].
  intros [= <-] Hi. destruct i; simpl; [exact Fa|].
  apply IH; [reflexivity | lia].
Qed.

Lemma mapM_total {A B : Type} (f : A -> result B) (g : A -> B) (l : list A) :
  Forall (fun a => f a = Ok (g a)) l -> mapM f l = Ok (map g l).
Proof.
  induction 1 as [|a t Ha _ IH]; simpl; [reflexivity|].
  now rewrite Ha, IH.
Qed.

Lemma normalize_index_Ok (size : nat) (j : Z) (k : nat) :
  normalize_index size j = Ok k ->
  (k < size)%nat /\
  ((0 <= j /\ j = Z.of_nat k) \/ (j < 0 /\ j + Z.of_nat size = Z.of_nat k)).
Proof.
  unfold normalize_index.
  destruct (0 <=? j) eqn:E0; destruct (j <? Z.of_nat size) eqn:E1; simpl;
    try (intros [= <-]; lia);
    destruct (- Z.of_nat size <=? j) eqn:E2; destruct (j <? 0) eqn:E3; simpl;
    try discriminate; intros [= <-]; lia.
Qed.

Lemma normalize_index_in_range (size : nat) (j : Z) :
  0 <= j < Z.of_nat size -> normalize_index size j = Ok (Z.to_nat j).
Proof.
  intros Hj. unfold normalize_index.
  replace (0 <=? j) with true by (symmetry; apply Z.leb_le; lia).
  replace (j <? Z.of_nat size) with true by (symmetry; apply Z.ltb_lt; lia).
  reflexivity.
Qed.

(** With [np.arange(n)] as row index and as many columns as rows, the index
    pairs are the rows in order, each with its normalized column. *)
Lemma index_pairs_arange (n ncols : nat) (cols : list Z) :
  length cols = n ->
  index_pairs n ncols (Np.arange n) cols
  = (js <- mapM (normalize_index ncols) cols ;; Ok (combine (seq 0 n) js)).
Proof.
  intros Hlen. unfold index_pairs, broadcast2.
  rewrite arange_length, Hlen, Nat.eqb_refl. simpl.
  unfold Np.arange.
  assert (Hgen : forall m s cs, length cs = m -> (s + m <= n)%nat ->
    mapM (fun ij : Z * Z =>
            i <- normalize_index n (fst ij) ;;
            j <- normalize_index ncols (snd ij) ;; Ok (i, j))
         (combine (map Z.of_nat (seq s m)) cs)
    = (js <- mapM (normalize_index ncols) cs ;; Ok (combine (seq s m) js))).
  { induction m as [|m IH]; intros s cs Hcs Hs.
    - destruct cs; [reflexivity | discriminate].
    - destruct cs as [|c cs]; [discriminate|]. simpl.
      rewrite normalize_index_in_range by lia. simpl.
      rewrite Nat2Z.id.
      destruct (normalize_index ncols c); simpl; [|reflexivity].
      rewrite IH by (simpl in Hcs; lia).
      destruct (mapM (normalize_index ncols) cs); reflexivity. }
  apply Hgen; [exact Hlen | lia].
Qed.

Lemma set_nth_length {A : Type} (n : nat) (v : A) (l : list A) :
  length (set_nth n v l) = length l.
Proof.
  revert n. induction l as [|x t IH]; intros [|n]; simpl; auto.
Qed.

Lemma set_nth_nth {A : Type} (n : nat) (v : A) (l : list A) (d : A) (i : nat) :
  (n < length l)%nat ->
  nth i (set_nth n v l) d = if Nat.eqb i n then v else nth i l d.
Proof.
  revert n i. induction l as [|x t IH]; intros [|n] [|i]; simpl; intros Hn;
    try lia; try reflexivity.
  apply IH. lia.
Qed.

Lemma set_nth_app_here {A : Type} (P : list A) (x v : A) (M : list A) :
  set_nth (length P) v (P ++ x :: M) = P ++ v :: M.
Proof. induction P; simpl; congruence. Qed.

(** Setting one cell per row, in row order. *)
Lemma fold_set_cell_rows (v : Q) (M : matrix) : forall (P : matrix) (js : list nat),
  length js = length M ->
  fold_left (set_cell v) (combine (seq (length P) (length M)) js) (P ++ M)
  = P ++ map (fun rj : list Q * nat => set_nth (snd rj) v (fst rj)) (combine M js).
Proof.
  induction M as [|r M IH]; intros P js Hjs.
  - reflexivity.
  - destruct js as [|j js]; [discriminate|]. simpl.
    unfold set_cell at 2. simpl fst; simpl snd.
    rewrite app_nth2, Nat.sub_diag by lia. simpl nth.
    rewrite set_nth_app_here.
    replace (P ++ set_nth j v r :: M) with ((P ++ [set_nth j v r]) ++ M)
      by (now rewrite <- app_assoc).
    replace (S (length P)) with (length (P ++ [set_nth j v r]))
      by (rewrite length_app; simpl; lia).
    rewrite IH by (simpl in Hjs; lia).
    now rewrite <- app_assoc.
Qed.

Lemma set_cells_arange (n ncols : nat) (M : matrix) (cols : list Z) (v : Q) :
  length cols = n -> length M = n ->
  set_cells n ncols M (Np.arange n) cols v
  = (js <- mapM (normalize_index ncols) cols ;;
     Ok (map (fun rj : list Q * nat => set_nth (snd rj) v (fst rj)) (combine M js))).
Proof.
  intros Hc HM. unfold set_cells. rewrite index_pairs_arange by exact Hc.
  destruct (mapM (normalize_index ncols) cols) as [js|e] eqn:E; simpl; [|reflexivity].
  apply mapM_Ok_length in E.
  rewrite <- HM. f_equal. apply (fold_set_cell_rows v M [] js). lia.
Qed.

Lemma get_cells_arange (n ncols : nat) (M : matrix) (cols : list Z) :
  length cols = n ->
  get_cells n ncols M (Np.arange n) cols
  = (js <- mapM (normalize_index ncols) cols ;;
     Ok (map (fun ij : nat * nat => nth (snd ij) (nth (fst ij) M []) 0%Q)
             (combine (seq 0 n) js))).
Proof.
  intros Hc. unfold get_cells. rewrite index_pairs_arange by exact Hc.
  destruct (mapM (normalize_index ncols) cols); reflexivity.
Qed.

Lemma nth_combine_seq {B : Type} (n : nat) (js : list B) (f : nat * B -> Q)
  (i : nat) (db : B) :
  length js = n -> (i < n)%nat ->
  nth i (map f (combine (seq 0 n) js)) 0%Q = f (i, nth i js db).
Proof.
  intros Hjs Hi.
  rewrite (nth_indep _ 0%Q (f (O, db)))
    by (rewrite length_map, length_combine, length_seq; lia).
  rewrite map_nth. f_equal.
  rewrite combine_nth by (rewrite length_seq; lia).
  now rewrite seq_nth.
Qed.

(** ** Mixing a deterministic prediction with the uniform policy *)

Lemma of_nat_pos (c : nat) : c <> O -> (0 < of_nat c)%Q.
Proof.
  intros Hc. unfold of_nat. change 0%Q with (inject_Z 0).
  rewrite <- Zlt_Qlt. lia.
Qed.

Lemma of_nat_succ (c : nat) : (of_nat (S c) == of_nat c + 1)%Q.
Proof.
  unfold of_nat. rewrite Nat2Z.inj_succ. unfold Z.succ.
  now rewrite inject_Z_plus.
Qed.

Lemma qsum_repeat (u : Q) (c : nat) : (qsum (repeat u c) == of_nat c * u)%Q.
Proof.
  induction c as [|c IH].
  - simpl. change (of_nat 0) with 0%Q. ring.
  - simpl repeat. simpl qsum. rewrite IH, of_nat_succ. lra.
Qed.

Lemma qsum_set_nth (j : nat) (v : Q) (l : list Q) :
  (j < length l)%nat ->
  (qsum (set_nth j v l) == qsum l - nth j l 0 + v)%Q.
Proof.
  revert j. induction l as [|x t IH]; intros [|j]; simpl; intros Hj; try lia.
  - lra.
  - rewrite IH by lia. lra.
Qed.

Lemma Forall_set_nth {A : Type} (P : A -> Prop) (n : nat) (v : A) (l : list A) :
  Forall P l -> P v -> Forall P (set_nth n v l).
Proof.
  intros Hl Hv. revert n. induction Hl; intros [|n]; simpl; constructor; auto.
Qed.

Lemma nth_repeat_lt {A : Type} (u d : A) (c i : nat) :
  (i < c)%nat -> nth i (repeat u c) d = u.
Proof.
  revert i. induction c; intros [|i] Hi; simpl; try lia; auto. apply IHc. lia.
Qed.

Lemma fill_zeros (u : Q) (n c : nat) : fill u (zeros n c) = repeat (repeat u c) n.
Proof.
  unfold fill, zeros.
  assert (Hrow : map (fun _ : Q => u) (repeat 0%Q c) = repeat u c).
  { induction c; simpl; congruence. }
  induction n; simpl; [reflexivity|]. now rewrite Hrow, IHn.
Qed.

Lemma combine_repeat_map {B : Type} (r : list Q) (f : list Q * nat -> B)
  (js : list nat) :
  map f (combine (repeat r (length js)) js) = map (fun j => f (r, j)) js.
Proof. induction js; simpl; congruence. Qed.

(** The matrix of lines 236-240: row [i] is the uniform row with the cell of
    the (normalized) prediction [i] overwritten. *)
Lemma mixed_policy_rows (n c : nat) (alpha : Q) (preds : list Z) :
  c <> O -> length preds = n ->
  mixed_policy n c alpha preds
  = (js <- mapM (normalize_index c) preds ;;
     Ok (map (fun j => set_nth j (alpha + (1 - alpha) / of_nat c)%Q
                         (repeat ((1 - alpha) / of_nat c)%Q c)) js)).
Proof.
  intros Hc Hp. unfold mixed_policy.
  destruct (Nat.eqb_spec c 0) as [|_]; [contradiction|].
  rewrite fill_zeros.
  rewrite set_cells_arange by (auto; apply repeat_length).
  destruct (mapM (normalize_index c) preds) as [js|e] eqn:E; simpl; [|reflexivity].
  apply mapM_Ok_length in E. rewrite <- Hp, <- E.
  now rewrite combine_repeat_map.
Qed.

Lemma mixed_policy_length (n c : nat) (alpha : Q) (preds : list Z) (pi : matrix) :
  mixed_policy n c alpha preds = Ok pi -> length pi = n.
Proof.
  unfold mixed_policy, set_cells.
  destruct (Nat.eqb c 0); [discriminate|].
  destruct (index_pairs _ _ _ _) as [idx|e]; simpl; [|discriminate].
  intros [= <-].
  assert (H : forall l m, length (fold_left (set_cell (alpha + (1 - alpha) / of_nat c)%Q) l m)
                          = length m).
  { induction l as [|ij l IH]; intros m; simpl; [reflexivity|].
    rewrite IH. unfold set_cell. apply set_nth_length. }
  rewrite H. unfold fill, zeros. now rewrite length_map, repeat_length.
Qed.

(** One row of a mixed policy. *)
Lemma mixed_row (c j : nat) (alpha : Q) :
  c <> O -> (j < c)%nat -> (0 <= alpha <= 1)%Q ->
  let u := ((1 - alpha) / of_nat c)%Q in
  let row := set_nth j (alpha + u)%Q (repeat u c) in
  length row = c /\
  (forall a, (a < c)%nat -> nth a row 0%Q = if Nat.eqb a j then (alpha + u)%Q else u) /\
  (qsum row == 1)%Q /\
  Forall (fun q => 0 <= q)%Q row /\
  ((alpha < 1)%Q -> Forall (fun q => 0 < q)%Q row).
Proof.
  intros Hc Hj Ha u row.
  pose proof (of_nat_pos c Hc) as Hpos.
  assert (Hu : (0 <= u)%Q).
  { unfold u, Qdiv. apply Qmult_le_0_compat; [lra|].
    apply Qinv_le_0_compat. lra. }
  split; [unfold row; now rewrite set_nth_length, repeat_length|].
  split.
  { intros a Hac. unfold row. rewrite set_nth_nth by (now rewrite repeat_length).
    destruct (Nat.eqb a j); [reflexivity | now apply nth_repeat_lt]. }
  split.
  { unfold row. rewrite qsum_set_nth by (now rewrite repeat_length).
    rewrite nth_repeat_lt by exact Hj. rewrite qsum_repeat.
    unfold u. field. lra. }
  split.
  { unfold row. apply Forall_set_nth; [|lra].
    apply Forall_forall. intros q Hq. apply repeat_spec in Hq. now subst. }
  intros Hlt.
  assert (Hu' : (0 < u)%Q).
  { unfold u, Qdiv. apply Qmult_lt_0_compat; [lra|].
    apply Qinv_lt_0_compat. exact Hpos. }
  unfold row. apply Forall_set_nth; [|lra].
  apply Forall_forall. intros q Hq. apply repeat_spec in Hq. now subst.
Qed.

(** ** Reachable states *)

Lemma take_Ok {A : Type} (l : list A) (idx : list nat) (r : list A) :
  take l idx = Ok r -> length r = length idx /\ Forall (fun a => In a l) r.
Proof.
  unfold take. revert r. induction idx as [|i idx IH]; simpl; intros r.
  - intros [= <-]. split; [reflexivity | constructor].
  - destruct (nth_error l i) as [a|] eqn:E; simpl; [|discriminate].
    destruct (mapM _ idx) as [t|e]; simpl; [|discriminate].
    intros [= <-]. destruct (IH t eq_refl) as [Hl Hf].
    split; [simpl; now rewrite Hl|].
    constructor; [eapply nth_error_In; eassumption | exact Hf].
Qed.

Lemma with_random_state_Ok {G : Generator} {A : Type} (seed : option Z)
  (g : RandomState G) (body : RandomState G -> result A * RandomState G)
  (a : A) (g' : RandomState G) :
  with_random_state seed g body = (Ok a, g') -> exists r, fst (body r) = Ok a.
Proof.
  unfold with_random_state. destruct seed as [s|].
  - destruct (valid_seed s); [|discriminate].
    intros [= H _]. now exists (seeded G s).
  - intros H. exists g. now rewrite H.
Qed.

Lemma post_init_invariant (X0 : matrix) (y0 : list Z) (clf : Estimator)
  (alpha : pynum) (d : Dataset) :
  post_init X0 y0 clf alpha = Ok d -> dataset_invariant d /\ split_state d = None.
Proof.
  intros Hd. apply post_init_Ok in Hd.
  destruct Hd as (a & full & _ & _ & Hlo & Hhi & Hchk & _ & ->).
  unfold dataset_invariant, n_actions. simpl.
  split; [|reflexivity].
  split; [|split; [|split; [|exact I]]].
  - intros Hy. apply (f_equal (@length Z)) in Hy.
    rewrite reindex_length in Hy. simpl in Hy.
    unfold check_X_y in Hchk. destruct X0 as [|row rest]; [discriminate|].
    destruct (Nat.eqb (length row) 0); [discriminate|].
    destruct (negb (forallb _ _)); [discriminate|].
    destruct (Nat.eqb_spec (length (row :: rest)) (length y0)) as [E|];
      [|discriminate].
    simpl in E. lia.
  - split; [now apply Qle_bool_iff|].
    unfold Qlt_bool in Hhi. apply Qnot_le_lt. intros H.
    apply Qle_bool_iff in H. rewrite H in Hhi. discriminate.
  - intros v. rewrite unique_reindex_length. apply reindex_values.
Qed.

Lemma split_train_eval_Ok {G : Generator} (d : Dataset) (eval_size : pynum)
  (seed : option Z) (g g' : RandomState G) (d' : Dataset) :
  split_train_eval d eval_size seed g = (Ok d', g') ->
  exists s ind_train ind_test,
    d' = {| X := X d; y := y d; base_classifier_b := base_classifier_b d;
            alpha_b := alpha_b d; y_full := y_full d; split_state := Some s |} /\
    n_rounds_ev s = length (X_ev s) /\
    take (X d) ind_train = Ok (X_tr s) /\ take (X d) ind_test = Ok (X_ev s) /\
    take (y d) ind_train = Ok (y_tr s) /\ take (y d) ind_test = Ok (y_ev s) /\
    take (y_full d) ind_test = Ok (y_full_ev s).
Proof.
  unfold split_train_eval.
  destruct (validate_shuffle_split _ _) as [[n_train n_test]|e]; [|discriminate].
  intros H. apply with_random_state_Ok in H. destruct H as [r H].
  destruct (permutation G r (length (X d))) as [perm r'].
  set (ind_test := firstn n_test perm) in *.
  set (ind_train := firstn n_train (skipn n_test perm)) in *.
  simpl in H.
  destruct (take (X d) ind_train) as [xtr|] eqn:E1; simpl in H; [|discriminate].
  destruct (take (X d) ind_test) as [xev|] eqn:E2; simpl in H; [|discriminate].
  destruct (take (y d) ind_train) as [ytr|] eqn:E3; simpl in H; [|discriminate].
  destruct (take (y d) ind_test) as [yev|] eqn:E4; simpl in H; [|discriminate].
  destruct (take (y_full d) ind_test) as [fev|] eqn:E5; simpl in H; [|discriminate].
  injection H as <-.
  eexists _, ind_train, ind_test. simpl. repeat split; eassumption.
Qed.

Lemma reachable_invariant {G : Generator} (d : Dataset) :
  reachable G d -> dataset_invariant d.
Proof.
  induction 1 as [X0 y0 clf alpha d Hd | d es seed g d' g' _ IH Hs].
  - now apply post_init_invariant in Hd.
  - apply split_train_eval_Ok in Hs.
    destruct Hs as (s & itr & ite & -> & Hn & _ & Hxev & Hytr & Hyev & Hfev).
    destruct IH as (Hy & Ha & Hv & _).
    unfold dataset_invariant, n_actions in *. simpl.
    apply take_Ok in Hxev, Hytr, Hyev, Hfev.
    split; [exact Hy|]. split; [exact Ha|]. split; [exact Hv|].
    split; [exact Hn|]. split; [lia|]. split; [lia|]. tauto.
Qed.

(** ** Synthesized policies *)

Lemma mixed_policy_spec (n c : nat) (alpha : Q) (preds : list Z) :
  c <> O -> length preds = n ->
  Forall (fun p => 0 <= p < Z.of_nat c) preds -> (0 <= alpha <= 1)%Q ->
  exists pi,
    mixed_policy n c alpha preds = Ok pi /\ length pi = n /\
    forall i, (i < n)%nat ->
      is_mixed_row c alpha (nth i preds 0) (nth i pi []) /\
      (qsum (nth i pi []) == 1)%Q /\
      Forall (fun q => 0 <= q)%Q (nth i pi []) /\
      ((alpha < 1)%Q -> Forall (fun q => 0 < q)%Q (nth i pi [])).
Proof.
  intros Hc Hlen Hrange Ha.
  rewrite mixed_policy_rows by assumption.
  rewrite (mapM_total _ Z.to_nat).
  2:{ eapply Forall_impl; [|exact Hrange]. intros p Hp.
      now apply normalize_index_in_range. }
  simpl. eexists. split; [reflexivity|].
  split; [now rewrite !length_map|].
  intros i Hi.
  set (f := fun j : nat => set_nth j _ _).
  rewrite (nth_indep _ [] (f (Z.to_nat 0))) by (rewrite !length_map; lia).
  rewrite map_map, (map_nth (fun p => f (Z.to_nat p))).
  rewrite Forall_forall in Hrange.
  assert (Hp : 0 <= nth i preds 0 < Z.of_nat c)
    by (apply Hrange, nth_In; lia).
  destruct (mixed_row c (Z.to_nat (nth i preds 0)) alpha Hc) as (R1 & R2 & R3 & R4 & R5);
    [lia | exact Ha |].
  split; [|now repeat split].
  split; [exact R1|].
  intros a Hac. unfold f. rewrite (R2 a Hac).
  destruct (Nat.eqb_spec a (Z.to_nat (nth i preds 0))) as [->|Hne].
  - rewrite Z2Nat.id, Z.eqb_refl by lia. reflexivity.
  - destruct (Z.eqb_spec (Z.of_nat a) (nth i preds 0)) as [E|_]; [|reflexivity].
    exfalso. apply Hne. rewrite <- E. now rewrite Nat2Z.id.
Qed.

Lemma n_actions_nonzero (d : Dataset) : dataset_invariant d -> n_actions d <> O.
Proof.
  intros (Hy & _ & Hv & _) Hz. destruct (y d) as [|v t] eqn:E; [congruence|].
  specialize (Hv v). rewrite Hz in Hv. simpl in Hv.
  assert (0 <= v < 0) by (apply Hv; now left). lia.
Qed.

Lemma predictions_in_range (d : Dataset) (s : SplitState) (clf : Estimator) :
  dataset_invariant d -> split_state d = Some s ->
  predicts_training_labels clf s ->
  length (fit_predict clf (X_tr s) (y_tr s) (X_ev s)) = n_rounds_ev s /\
  Forall (fun p => 0 <= p < Z.of_nat (n_actions d))
         (fit_predict clf (X_tr s) (y_tr s) (X_ev s)).
Proof.
  intros (_ & _ & Hv & Hs) Hsplit [Hlen Hin]. rewrite Hsplit in Hs.
  destruct Hs as (Hn & _ & _ & Htr & _).
  split; [congruence|].
  rewrite Forall_forall in *. intros p Hp. apply Hv, Htr, Hin, Hp.
Qed.

(** C3: on every reachable split state the behavior policy and every
    evaluation policy with [alpha_e] in [0, 1] are built; each of their rows
    holds [(1 - alpha) / n_actions] everywhere except at the predicted
    action, which holds [alpha + (1 - alpha) / n_actions]; each row sums to
    one and has no negative entry; every entry of the behavior policy (and
    of an evaluation policy with [alpha_e < 1]) is strictly positive. *)
Theorem synthesized_policy_rows (G : Generator) (d : Dataset) (s : SplitState) :
  reachable G d -> split_state d = Some s ->
  (predicts_training_labels (base_classifier_b d) s ->
   exists pi_b,
     behavior_policy d s = Ok pi_b /\ length pi_b = n_rounds_ev s /\
     forall i, (i < n_rounds_ev s)%nat ->
       is_mixed_row (n_actions d) (alpha_b d)
         (nth i (fit_predict (base_classifier_b d) (X_tr s) (y_tr s) (X_ev s)) 0)
         (nth i pi_b []) /\
       (qsum (nth i pi_b []) == 1)%Q /\
       Forall (fun q => 0 <= q)%Q (nth i pi_b []) /\
       Forall (fun q => 0 < q)%Q (nth i pi_b [])) /\
  (forall clf alpha_e,
     predicts_training_labels clf s -> (0 <= alpha_e <= 1)%Q ->
     exists pi_e,
       evaluation_policy d s clf alpha_e = Ok pi_e /\ length pi_e = n_rounds_ev s /\
       forall i, (i < n_rounds_ev s)%nat ->
         is_mixed_row (n_actions d) alpha_e
           (nth i (fit_predict clf (X_tr s) (y_tr s) (X_ev s)) 0) (nth i pi_e []) /\
         (qsum (nth i pi_e []) == 1)%Q /\
         Forall (fun q => 0 <= q)%Q (nth i pi_e []) /\
         ((alpha_e < 1)%Q -> Forall (fun q => 0 < q)%Q (nth i pi_e []))).
Proof.
  intros Hr Hs. apply reachable_invariant in Hr.
  pose proof (n_actions_nonzero d Hr) as Hc.
  split.
  - intros Hclf.
    destruct (predictions_in_range d s _ Hr Hs Hclf) as [Hlen Hrange].
    destruct Hr as (_ & Ha & _).
    destruct (mixed_policy_spec _ _ (alpha_b d) _ Hc Hlen Hrange) as (pi & E & L & Hrows);
      [lra|].
    exists pi. split; [exact E|]. split; [exact L|].
    intros i Hi. destruct (Hrows i Hi) as (R1 & R2 & R3 & R4).
    repeat split; try assumption; try apply R1. apply R4. lra.
  - intros clf alpha_e Hclf Ha.
    destruct (predictions_in_range d s _ Hr Hs Hclf) as [Hlen Hrange].
    exact (mixed_policy_spec _ _ alpha_e _ Hc Hlen Hrange Ha).
Qed.

(** ** Sampling *)

Section Sampling.

Variable G : Generator.

Lemma choice_Ok (n : nat) (p : list Q) (r r' : RandomState G) (a : Z) :
  choice n p r = (Ok a, r') -> 0 <= a < Z.of_nat n.
Proof.
  unfold choice.
  destruct (Nat.eqb n 0); [discriminate|].
  destruct (negb (Nat.eqb (length p) n)); [discriminate|].
  destruct (existsb _ p); [discriminate|].
  destruct (Qlt_bool atol _); [discriminate|].
  destruct (Nat.ltb _ 1); [discriminate|].
  destruct (random_sample G r) as [x r1].
  destruct (Nat.ltb_spec (searchsorted_right
    (map (fun c => (c / last (qcumsum_from 0 p) 0)%Q) (qcumsum_from 0 p)) x) n);
    [|discriminate].
  intros [= <- _]. lia.
Qed.

Lemma sample_actions_Ok (n : nat) (pi : matrix) : forall (r r' : RandomState G) l,
  sample_actions n pi r = (Ok l, r') ->
  length l = length pi /\ Forall (fun a => 0 <= a < Z.of_nat n) l.
Proof.
  induction pi as [|p pi IH]; simpl; intros r r' l.
  - intros [= <- _]. split; [reflexivity | constructor].
  - destruct (choice n p r) as [[a|e] r1] eqn:C; [|discriminate].
    destruct (sample_actions n pi r1) as [[t|e] r2] eqn:S; [|discriminate].
    intros [= <- _]. destruct (IH _ _ _ S) as [Hl Hf].
    split; [simpl; now rewrite Hl|].
    constructor; [eapply choice_Ok; eassumption | exact Hf].
Qed.

Lemma last_indep (l : list Q) (d d' : Q) : l <> [] -> last l d = last l d'.
Proof.
  induction l as [|c t IH]; [congruence|]. intros _.
  destruct t as [|c' t']; [reflexivity|].
  change (last (c' :: t') d = last (c' :: t') d'). apply IH. discriminate.
Qed.

Lemma qcumsum_last (p : list Q) : forall acc,
  (last (qcumsum_from acc p) acc == acc + qsum p)%Q.
Proof.
  induction p as [|x t IH]; intros acc; [simpl; lra|].
  destruct t as [|x' t'].
  - simpl. lra.
  - change (last (qcumsum_from (acc + x) (x' :: t')) acc == acc + (x + qsum (x' :: t')))%Q.
    rewrite (last_indep _ acc (acc + x)%Q) by discriminate.
    rewrite IH. lra.
Qed.

Lemma qcumsum_length (p : list Q) : forall acc, length (qcumsum_from acc p) = length p.
Proof. induction p; simpl; auto. Qed.

Lemma last_map_div (l : list Q) (L : Q) :
  l <> [] -> last (map (fun c => (c / L)%Q) l) 0%Q = (last l 0 / L)%Q.
Proof.
  induction l as [|c t IH]; [congruence|]. intros _.
  destruct t as [|c' t']; [reflexivity|].
  change (last (map (fun c => (c / L)%Q) (c' :: t')) 0%Q = (last (c' :: t') 0 / L)%Q).
  apply IH. discriminate.
Qed.

Lemma searchsorted_right_lt (l : list Q) (x : Q) :
  l <> [] -> (x < last l 0)%Q -> (searchsorted_right l x < length l)%nat.
Proof.
  induction l as [|c t IH]; [congruence|]. intros _ Hx.
  simpl searchsorted_right. destruct (Qle_bool c x) eqn:E; [|simpl; lia].
  destruct t as [|c' t'].
  - simpl in Hx. apply Qle_bool_iff in E. lra.
  - simpl length. apply -> Nat.succ_lt_mono. apply IH; [discriminate | exact Hx].
Qed.

Hypothesis draws : uniform_draws G.

(** A row that is a probability vector with full support yields an action. *)
Lemma choice_total (n : nat) (p : list Q) (r : RandomState G) :
  n <> O -> length p = n -> Forall (fun q => 0 < q)%Q p -> (qsum p == 1)%Q ->
  exists a r', choice n p r = (Ok a, r').
Proof.
  intros Hn Hlen Hpos Hsum. unfold choice.
  destruct (Nat.eqb_spec n 0) as [|_]; [contradiction|].
  rewrite Hlen, Nat.eqb_refl. simpl negb. cbv iota.
  assert (E3 : existsb (fun x => Qlt_bool x 0) p = false).
  { clear -Hpos. induction Hpos as [|q t Hq _ IH]; [reflexivity|]. simpl.
    rewrite IH, orb_false_r. unfold Qlt_bool.
    replace (Qle_bool 0 q) with true; [reflexivity|].
    symmetry. apply Qle_bool_iff. lra. }
  rewrite E3.
  assert (E4 : Qlt_bool atol (Qabs (qsum p - 1)) = false).
  { unfold Qlt_bool. replace (Qle_bool (Qabs (qsum p - 1)) atol) with true;
      [reflexivity|].
    symmetry. apply Qle_bool_iff.
    assert (Hz : (qsum p - 1 == 0)%Q) by lra.
    rewrite Hz. simpl. unfold atol. apply Qle_bool_iff. reflexivity. }
  rewrite E4.
  assert (E5 : Nat.ltb (length (filter (fun x => Qlt_bool 0 x) p)) 1 = false).
  { apply Nat.ltb_ge. destruct Hpos as [|q t Hq _]; [simpl in Hlen; lia|].
    simpl. unfold Qlt_bool at 1.
    replace (Qle_bool q 0) with false; [simpl; lia|].
    symmetry. apply not_true_is_false. intros H. apply Qle_bool_iff in H. lra. }
  rewrite E5.
  pose proof (draws r) as Hx.
  destruct (random_sample G r) as [x r1]. simpl in Hx.
  set (cdf := qcumsum_from 0 p).
  assert (Hne : cdf <> []).
  { intros H. apply (f_equal (@length Q)) in H. unfold cdf in H.
    rewrite qcumsum_length in H. simpl in H. lia. }
  assert (HL : (last cdf 0 == 1)%Q).
  { unfold cdf. rewrite qcumsum_last. lra. }
  destruct (Nat.ltb_spec (searchsorted_right (map (fun c => (c / last cdf 0)%Q) cdf) x) n)
    as [_|Hge].
  - eauto.
  - exfalso.
    assert (Hlt : (searchsorted_right (map (fun c => (c / last cdf 0)%Q) cdf) x
                   < length (map (fun c => (c / last cdf 0)%Q) cdf))%nat).
    { apply searchsorted_right_lt.
      - intros H. apply map_eq_nil in H. contradiction.
      - rewrite last_map_div by exact Hne.
        revert HL Hx. generalize (last cdf 0%Q). intros L HL Hx.
        assert (Hone : (L / L == 1)%Q).
        { field. intros H0. rewrite H0 in HL. discriminate. }
        lra. }
    assert (Hcdf : length cdf = n) by (unfold cdf; now rewrite qcumsum_length).
    rewrite length_map in Hlt. lia.
Qed.

Lemma sample_actions_total (n : nat) (pi : matrix) :
  n <> O ->
  Forall (fun p => length p = n /\ Forall (fun q => 0 < q)%Q p /\ (qsum p == 1)%Q) pi ->
  forall r : RandomState G, exists l r', sample_actions n pi r = (Ok l, r').
Proof.
  intros Hn. induction 1 as [|p pi (Hl & Hp & Hs) _ IH]; intros r; simpl.
  - eauto.
  - destruct (choice_total n p r Hn Hl Hp Hs) as (a & r1 & ->).
    destruct (IH r1) as (l & r2 & ->). eauto.
Qed.

End Sampling.

(** ** The feedback dictionary *)

Section FeedbackFacts.

Variable G : Generator.

Lemma get_cells_in_range (n c : nat) (M : matrix) (act : list Z) :
  length act = n -> Forall (fun a => 0 <= a < Z.of_nat c) act ->
  get_cells n c M (Np.arange n) act
  = Ok (map (fun ij : nat * nat => nth (snd ij) (nth (fst ij) M []) 0%Q)
            (combine (seq 0 n) (map Z.to_nat act))).
Proof.
  intros Hl Hr. rewrite get_cells_arange by exact Hl.
  rewrite (mapM_total _ Z.to_nat); [reflexivity|].
  eapply Forall_impl; [|exact Hr]. intros a Ha.
  now apply normalize_index_in_range.
Qed.

Lemma get_cells_nth (n c : nat) (M : matrix) (act : list Z) (vals : list Q) (i : nat) :
  length act = n -> Forall (fun a => 0 <= a < Z.of_nat c) act ->
  get_cells n c M (Np.arange n) act = Ok vals ->
  length vals = n /\
  ((i < n)%nat -> nth i vals 0%Q = nth (Z.to_nat (nth i act 0)) (nth i M []) 0%Q).
Proof.
  intros Hl Hr. rewrite get_cells_in_range by assumption. intros [= <-].
  split; [rewrite length_map, length_combine, length_seq, length_map; lia|].
  intros Hi.
  rewrite (nth_combine_seq n _ _ i (Z.to_nat 0)) by (rewrite ?length_map; lia).
  cbn [fst snd]. now rewrite (map_nth Z.to_nat).
Qed.

(** What a returned feedback dictionary holds. *)
Lemma sample_feedback_Ok (d : Dataset) (s : SplitState) (pi_b : matrix)
  (r r' : RandomState G) (fb : Feedback.t) :
  length pi_b = n_rounds_ev s ->
  sample_feedback d s pi_b r = (Ok fb, r') ->
  Feedback.n_actions fb = n_actions d /\
  Feedback.n_rounds fb = n_rounds_ev s /\
  Feedback.context fb = X_ev s /\
  Feedback.position fb = None /\
  length (Feedback.action fb) = n_rounds_ev s /\
  length (Feedback.reward fb) = n_rounds_ev s /\
  length (Feedback.pscore fb) = n_rounds_ev s /\
  forall i, (i < n_rounds_ev s)%nat ->
    0 <= nth i (Feedback.action fb) 0 < Z.of_nat (n_actions d) /\
    nth i (Feedback.reward fb) 0%Q
    = nth (Z.to_nat (nth i (Feedback.action fb) 0)) (nth i (y_full_ev s) []) 0%Q /\
    nth i (Feedback.pscore fb) 0%Q
    = nth (Z.to_nat (nth i (Feedback.action fb) 0)) (nth i pi_b []) 0%Q.
Proof.
  intros Hpi. unfold sample_feedback.
  destruct (sample_actions (n_actions d) pi_b r) as [[act|e] r1] eqn:S; [|discriminate].
  apply sample_actions_Ok in S. destruct S as [Hl Hr]. rewrite Hpi in Hl.
  destruct (get_cells _ _ (y_full_ev s) _ act) as [rew|e] eqn:E1; simpl; [|discriminate].
  destruct (get_cells _ _ pi_b _ act) as [ps|e] eqn:E2; simpl; [|discriminate].
  intros [= <- _]. simpl.
  repeat (split; [first [reflexivity | exact Hl
                        | exact (proj1 (get_cells_nth _ _ _ _ _ O Hl Hr E1))
                        | exact (proj1 (get_cells_nth _ _ _ _ _ O Hl Hr E2))]|]).
  intros i Hi. split.
  - rewrite Forall_forall in Hr. apply Hr, nth_In. lia.
  - split.
    + exact (proj2 (get_cells_nth _ _ _ _ _ i Hl Hr E1) Hi).
    + exact (proj2 (get_cells_nth _ _ _ _ _ i Hl Hr E2) Hi).
Qed.

Lemma obtain_batch_bandit_feedback_Ok (d : Dataset) (seed : option Z)
  (g g' : RandomState G) (fb : Feedback.t) :
  obtain_batch_bandit_feedback d seed g = (Ok fb, g') ->
  exists s pi_b (r : RandomState G),
    split_state d = Some s /\ behavior_policy d s = Ok pi_b /\
    length pi_b = n_rounds_ev s /\
    fst (sample_feedback d s pi_b r) = Ok fb.
Proof.
  unfold obtain_batch_bandit_feedback. intros H.
  apply with_random_state_Ok in H. destruct H as [r H].
  destruct (split_state d) as [s|]; [|discriminate].
  destruct (behavior_policy d s) as [pi_b|e] eqn:B; [|discriminate].
  exists s, pi_b, r. repeat split; try assumption.
  unfold behavior_policy in B. now apply mixed_policy_length in B.
Qed.

Hypothesis draws : uniform_draws G.

Lemma sample_feedback_total (d : Dataset) (s : SplitState) (pi_b : matrix)
  (r : RandomState G) :
  n_actions d <> O -> length pi_b = n_rounds_ev s ->
  Forall (fun p => length p = n_actions d /\ Forall (fun q => 0 < q)%Q p /\
                   (qsum p == 1)%Q) pi_b ->
  exists fb r', sample_feedback d s pi_b r = (Ok fb, r').
Proof.
  intros Hc Hpi Hrows. unfold sample_feedback.
  destruct (sample_actions_total G draws _ _ Hc Hrows r) as (act & r1 & S).
  rewrite S. apply sample_actions_Ok in S. destruct S as [Hl Hr].
  rewrite Hpi in Hl.
  rewrite !get_cells_in_range by assumption. simpl. eauto.
Qed.

(** Sampling returns on every reachable split state whose behavior
    classifier keeps its contract. *)
Lemma obtain_batch_bandit_feedback_total (d : Dataset) (s : SplitState)
  (seed : option Z) (g : RandomState G) :
  reachable G d -> split_state d = Some s ->
  predicts_training_labels (base_classifier_b d) s -> usable_seed seed ->
  exists fb g', obtain_batch_bandit_feedback d seed g = (Ok fb, g').
Proof.
  intros Hr Hs Hclf Hseed.
  apply reachable_invariant in Hr. pose proof (n_actions_nonzero d Hr) as Hc.
  destruct (predictions_in_range d s _ Hr Hs Hclf) as [Hlen Hrange].
  assert (Ha : (0 <= alpha_b d < 1)%Q) by apply Hr.
  destruct (mixed_policy_spec _ _ (alpha_b d) _ Hc Hlen Hrange) as (pi_b & E & L & Hrows);
    [lra|].
  change (behavior_policy d s = Ok pi_b) in E.
  assert (Hall : Forall (fun p => length p = n_actions d /\
                   Forall (fun q => 0 < q)%Q p /\ (qsum p == 1)%Q) pi_b).
  { apply Forall_forall. intros p Hp.
    destruct (In_nth _ _ [] Hp) as (i & Hi & <-).
    rewrite L in Hi. destruct (Hrows i Hi) as ([R1 _] & R2 & _ & R4).
    repeat split; [exact R1 | apply R4; lra | exact R2]. }
  unfold obtain_batch_bandit_feedback, with_random_state.
  rewrite Hs, E.
  destruct seed as [z|]; simpl in Hseed.
  - rewrite Hseed.
    destruct (sample_feedback_total d s pi_b (seeded G z) Hc L Hall) as (fb & r' & ->).
    simpl. eauto.
  - exact (sample_feedback_total d s pi_b g Hc L Hall).
Qed.

End FeedbackFacts.

(** C4: on a reachable split state sampling returns a dictionary (the
    classifier and the generator keeping their contracts), and in every
    dictionary it returns, [pscore[i]] is the entry of the behavior policy
    matrix at row [i] and column [action[i]], for every evaluation row
    [i]. *)
Theorem pscore_is_behavior_probability (G : Generator) (d : Dataset)
  (s : SplitState) (seed : option Z) (g : RandomState G) :
  reachable G d -> split_state d = Some s ->
  (predicts_training_labels (base_classifier_b d) s ->
   uniform_draws G -> usable_seed seed ->
   exists fb g', obtain_batch_bandit_feedback d seed g = (Ok fb, g')) /\
  (forall fb g',
     obtain_batch_bandit_feedback d seed g = (Ok fb, g') ->
     exists pi_b,
       behavior_policy d s = Ok pi_b /\
       length (Feedback.action fb) = n_rounds_ev s /\
       length (Feedback.pscore fb) = n_rounds_ev s /\
       forall i, (i < n_rounds_ev s)%nat ->
         0 <= nth i (Feedback.action fb) 0 < Z.of_nat (n_actions d) /\
         nth i (Feedback.pscore fb) 0%Q
         = nth (Z.to_nat (nth i (Feedback.action fb) 0)) (nth i pi_b []) 0%Q).
Proof.
  intros Hr Hs. split.
  - intros Hclf Hdraws Hseed.
    exact (obtain_batch_bandit_feedback_total G Hdraws d s seed g Hr Hs Hclf Hseed).
  - intros fb g' E.
    destruct (obtain_batch_bandit_feedback_Ok G _ _ _ _ _ E)
      as (s' & pi_b & r & Hs' & B & L & F).
    assert (s' = s) by congruence. subst s'.
    destruct (sample_feedback d s pi_b r) as [res r'] eqn:SF. simpl in F. subst res.
    destruct (sample_feedback_Ok G d s pi_b r r' fb L SF)
      as (_ & _ & _ & _ & La & _ & Lp & Hrows).
    exists pi_b. repeat split; try assumption; apply Hrows; assumption.
Qed.

(** ** Determinism, preconditions and argument validation *)

(** C9: with the same integer seed, two sampling calls on states that have
    the same behavior policy matrix and the same evaluation partition agree
    on [action], [reward] and [pscore] (and on failure), whatever the state
    of the process-wide generator, which neither call advances. *)
Theorem sampling_is_deterministic_given_seed (G : Generator) (d1 d2 : Dataset)
  (s1 s2 : SplitState) (seed : Z) (g1 g2 : RandomState G) :
  split_state d1 = Some s1 -> split_state d2 = Some s2 ->
  n_actions d1 = n_actions d2 -> n_rounds_ev s1 = n_rounds_ev s2 ->
  y_full_ev s1 = y_full_ev s2 ->
  behavior_policy d1 s1 = behavior_policy d2 s2 ->
  sampled (fst (obtain_batch_bandit_feedback d1 (Some seed) g1))
  = sampled (fst (obtain_batch_bandit_feedback d2 (Some seed) g2)) /\
  snd (obtain_batch_bandit_feedback d1 (Some seed) g1) = g1 /\
  snd (obtain_batch_bandit_feedback d2 (Some seed) g2) = g2.
Proof.
  intros H1 H2 Hc Hn Hf Hpi.
  unfold obtain_batch_bandit_feedback, with_random_state.
  destruct (valid_seed seed); [|now repeat split].
  rewrite H1, H2, Hpi. simpl snd.
  split; [|now split].
  destruct (behavior_policy d2 s2) as [pi_b|e]; [|reflexivity].
  unfold sample_feedback. rewrite Hc, Hn, Hf.
  destruct (sample_actions (n_actions d2) pi_b (seeded G seed)) as [[act|e] r];
    [|reflexivity].
  simpl fst.
  destruct (get_cells _ _ (y_full_ev s2) _ act); [|reflexivity].
  simpl. destruct (get_cells _ _ pi_b _ act); reflexivity.
Qed.

(** C8: as long as no split has been made, sampling and ground-truth
    evaluation raise and change nothing: neither method assigns to the
    instance, and the process-wide generator is handed back as it was.  The
    exception is the [AttributeError] of the missing split attribute as soon
    as the call's own argument is acceptable. *)
Theorem operations_fail_before_split (G : Generator) (d : Dataset)
  (seed : option Z) (g : RandomState G) (action_dist : pyobj) :
  split_state d = None ->
  (exists e, obtain_batch_bandit_feedback d seed g = (Raise e, g)) /\
  (usable_seed seed ->
   obtain_batch_bandit_feedback d seed g = (Raise AttributeError, g)) /\
  (exists e, calc_ground_truth_policy_value d action_dist = Raise e) /\
  (forall a, action_dist = PyNdarray a -> ndim a = 3%nat ->
   calc_ground_truth_policy_value d action_dist = Raise AttributeError).
Proof.
  intros Hs.
  unfold obtain_batch_bandit_feedback, with_random_state,
    calc_ground_truth_policy_value.
  rewrite Hs. repeat split.
  - destruct seed as [z|]; [destruct (valid_seed z)|]; simpl; eauto.
  - destruct seed as [z|]; simpl; [intros ->|]; reflexivity.
  - destruct action_dist as [a|]; [destruct (negb (Nat.eqb (ndim a) 3))|]; eauto.
  - intros a -> Hdim. now rewrite Hdim.
Qed.

(** C10: both validators of a mixing coefficient reject an integer, whatever
    its value: the constructor raises [ValueError] for an integer [alpha_b],
    the evaluation-policy synthesizer for an integer [alpha_e]. *)
Theorem integer_alpha_is_rejected (z : Z) :
  (forall X0 y0 clf, post_init X0 y0 clf (PyInt z) = Raise ValueError) /\
  (forall d clf_e, obtain_action_dist_by_eval_policy d clf_e (PyInt z)
                   = Raise ValueError).
Proof.
  split.
  - intros X0 y0 clf. unfold post_init. now destruct (is_classifier clf).
  - reflexivity.
Qed.

(** ** Concrete states *)

Lemma lcg_uniform_draws : uniform_draws lcg.
Proof.
  intros r. simpl. unfold lcg_next.
  pose proof (Z.mod_pos_bound (r * 75 + 74) 65537 ltac:(lia)) as H.
  unfold Qle, Qlt. simpl. lia.
Defined.

Lemma example_constructed_init :
  post_init four_rows [0; 1; 0; 1] first_label_classifier (PyFloat (4 # 5))
  = Ok example_constructed.
Proof. reflexivity. Defined.

Lemma example_dataset_split :
  split_train_eval (G := lcg) example_constructed (PyInt 2) (Some 7) 0
  = (Ok example_dataset, 0).
Proof. reflexivity. Defined.

Lemma example_dataset_reachable : reachable lcg example_dataset.
Proof.
  eapply reach_split.
  - eapply reach_init. exact example_constructed_init.
  - exact example_dataset_split.
Defined.

Lemma example_classifier_contract :
  predicts_training_labels first_label_classifier example_split.
Proof.
  split; [reflexivity|]. simpl. repeat constructor; simpl; auto.
Defined.

(** ** Ground truth *)

Lemma slice_one (k : nat) (l : list Q) :
  (k < length l)%nat -> slice (k * 1) 1 l = [nth k l 0%Q].
Proof.
  rewrite Nat.mul_1_r. unfold slice. revert l.
  induction k as [|k IH]; intros [|x t]; simpl; intros Hk; try lia.
  - reflexivity.
  - apply IH. lia.
Qed.

Lemma flat_map_singletons {A : Type} (f : A -> list Q) (h : A -> Q) (l : list A) :
  (forall x, In x l -> f x = [h x]) -> flat_map f l = map h l.
Proof.
  induction l as [|x t IH]; intros H; simpl; [reflexivity|].
  rewrite H by (now left). simpl. f_equal. apply IH. intros; apply H. now right.
Qed.

(** Indexing an array of shape [(n, c, 1)] with row numbers and in-range
    columns: one entry per row. *)
Lemma get_cells3_one_position (a : ndarray) (n c : nat) (cols : list Z) :
  shape a = [n; c; 1%nat] -> length (data a) = (n * c)%nat ->
  length cols = n -> Forall (fun j => 0 <= j < Z.of_nat c) cols ->
  get_cells3 a (Np.arange n) cols
  = Ok (map (fun ij : nat * nat => nth (fst ij * c + snd ij) (data a) 0%Q)
            (combine (seq 0 n) (map Z.to_nat cols))).
Proof.
  intros Hsh Hdata Hlen Hrange. unfold get_cells3. rewrite Hsh.
  rewrite index_pairs_arange by exact Hlen.
  rewrite (mapM_total _ Z.to_nat).
  2:{ eapply Forall_impl; [|exact Hrange]. intros p Hp.
      now apply normalize_index_in_range. }
  simpl. f_equal. apply flat_map_singletons.
  intros [i j] Hin. simpl.
  pose proof (in_combine_l _ _ _ _ Hin) as Hi. apply in_seq in Hi.
  pose proof (in_combine_r _ _ _ _ Hin) as Hj.
  apply in_map_iff in Hj. destruct Hj as (z & <- & Hz).
  rewrite Forall_forall in Hrange. specialize (Hrange z Hz).
  apply slice_one. nia.
Qed.

Lemma concat_uniform_length (M : matrix) (c : nat) :
  Forall (fun r => length r = c) M -> length (concat M) = (length M * c)%nat.
Proof.
  induction 1 as [|r M Hr _ IH]; simpl; [reflexivity|].
  rewrite length_app, IH, Hr. lia.
Qed.

Lemma nth_concat_uniform (M : matrix) (c : nat) : forall i j,
  Forall (fun r => length r = c) M -> (i < length M)%nat -> (j < c)%nat ->
  nth (i * c + j) (concat M) 0%Q = nth j (nth i M []) 0%Q.
Proof.
  induction M as [|r M IH]; intros i j HM Hi Hj; simpl in Hi; [lia|].
  inversion HM as [|? ? Hr HM']; subst.
  destruct i as [|i]; simpl.
  - rewrite app_nth1 by lia. reflexivity.
  - rewrite app_nth2 by lia.
    replace (length r + i * length r + j - length r)%nat
      with (i * length r + j)%nat by lia.
    apply IH; [exact HM' | lia | exact Hj].
Qed.

Lemma qsum_pointwise (l1 : list Q) : forall l2,
  length l1 = length l2 ->
  (forall i, (i < length l1)%nat -> (nth i l1 0 == nth i l2 0)%Q) ->
  (qsum l1 == qsum l2)%Q.
Proof.
  induction l1 as [|x t IH]; intros [|x' t'] Hl H; simpl in Hl; try lia.
  - reflexivity.
  - simpl. rewrite (IH t') by (try lia; intros i Hi; apply (H (S i)); simpl; lia).
    specialize (H O ltac:(simpl; lia)). simpl in H. rewrite H. reflexivity.
Qed.

Lemma mean_pointwise (l1 l2 : list Q) :
  length l1 = length l2 ->
  (forall i, (i < length l1)%nat -> (nth i l1 0 == nth i l2 0)%Q) ->
  (mean l1 == mean l2)%Q.
Proof.
  intros Hl H. unfold mean. rewrite (qsum_pointwise l1 l2 Hl H), Hl. reflexivity.
Qed.

Lemma labels_in_range (d : Dataset) (s : SplitState) :
  dataset_invariant d -> split_state d = Some s ->
  length (y_ev s) = n_rounds_ev s /\
  Forall (fun v => 0 <= v < Z.of_nat (n_actions d)) (y_ev s).
Proof.
  intros (_ & _ & Hv & Hs) Hsplit. rewrite Hsplit in Hs.
  destruct Hs as (_ & Hl & _ & _ & Hev). split; [exact Hl|].
  rewrite Forall_forall in *. intros v Hin. apply Hv, Hev, Hin.
Qed.

(** On an array of shape [(n_rounds_ev, n_actions, 1)] the evaluation
    averages, over the evaluation rows, the entry at the row's true label. *)
Lemma ground_truth_value (d : Dataset) (s : SplitState) (a : ndarray) :
  dataset_invariant d -> split_state d = Some s ->
  shape a = [n_rounds_ev s; n_actions d; 1%nat] ->
  length (data a) = (n_rounds_ev s * n_actions d)%nat ->
  calc_ground_truth_policy_value d (PyNdarray a)
  = Ok (mean (map (fun il : nat * nat =>
                     nth (fst il * n_actions d + snd il) (data a) 0%Q)
                  (combine (seq 0 (n_rounds_ev s)) (map Z.to_nat (y_ev s))))).
Proof.
  intros Hinv Hs Hsh Hdata.
  destruct (labels_in_range d s Hinv Hs) as [Hlen Hrange].
  unfold calc_ground_truth_policy_value, ndim. rewrite Hs, Hsh. simpl.
  rewrite Nat.eqb_refl. simpl.
  now rewrite (get_cells3_one_position a _ _ _ Hsh Hdata Hlen Hrange).
Qed.

(** C7 (as amended): the ground-truth evaluation rejects with [ValueError]
    whatever is not a three-dimensional array and every three-dimensional
    array whose first axis differs from [n_rounds_ev]; the other two axes
    are not examined.  On an array of shape [(n_rounds_ev, n_actions, 1)] it
    returns the mean over the evaluation rows of the entry at the row's true
    label. *)
Theorem ground_truth_checks_rank_and_rows (G : Generator) (d : Dataset)
  (s : SplitState) :
  reachable G d -> split_state d = Some s ->
  calc_ground_truth_policy_value d PyOther = Raise ValueError /\
  (forall a, ndim a <> 3%nat ->
     calc_ground_truth_policy_value d (PyNdarray a) = Raise ValueError) /\
  (forall a, ndim a = 3%nat -> hd O (shape a) <> n_rounds_ev s ->
     calc_ground_truth_policy_value d (PyNdarray a) = Raise ValueError) /\
  (forall a,
     shape a = [n_rounds_ev s; n_actions d; 1%nat] ->
     length (data a) = (n_rounds_ev s * n_actions d)%nat ->
     calc_ground_truth_policy_value d (PyNdarray a)
     = Ok (mean (map (fun il : nat * nat =>
                        nth (fst il * n_actions d + snd il) (data a) 0%Q)
                     (combine (seq 0 (n_rounds_ev s)) (map Z.to_nat (y_ev s)))))).
Proof.
  intros Hr Hs. apply reachable_invariant in Hr.
  split; [reflexivity|]. split; [|split].
  - intros a Hdim. unfold calc_ground_truth_policy_value.
    apply Nat.eqb_neq in Hdim. now rewrite Hdim.
  - intros a Hdim Hrows. unfold calc_ground_truth_policy_value.
    rewrite Hdim, Hs. simpl.
    apply Nat.eqb_neq in Hrows. now rewrite Hrows.
  - intros a. now apply ground_truth_value.
Qed.

(** The evaluation accepts an array whose last axis has length 2 and averages
    over both list positions. *)
Lemma ground_truth_accepts_two_positions :
  reachable lcg example_dataset /\
  split_state example_dataset = Some example_split /\
  shape two_positions
  <> [n_rounds_ev example_split; n_actions example_dataset; 1%nat] /\
  calc_ground_truth_policy_value example_dataset (PyNdarray two_positions)
  = Ok (mean [1 # 2; 1 # 2; 1 # 2; 1 # 2]).
Proof.
  split; [exact example_dataset_reachable|].
  split; [reflexivity|].
  split; [discriminate | reflexivity].
Qed.

(** C6: on a reachable split state, the action distribution synthesized
    with [alpha_e = 1.0] from a classifier that keeps its contract is
    accepted by the ground-truth evaluation, whose value is the accuracy of
    the classifier's predictions against the evaluation labels. *)
Theorem deterministic_policy_value_is_accuracy (G : Generator) (d : Dataset)
  (s : SplitState) (base_classifier_e : option Estimator) :
  let clf := match base_classifier_e with
             | None => base_classifier_b d
             | Some c => c
             end in
  reachable G d -> split_state d = Some s ->
  (forall c, base_classifier_e = Some c -> is_classifier c = true) ->
  predicts_training_labels clf s ->
  exists action_dist v,
    obtain_action_dist_by_eval_policy d base_classifier_e (PyFloat 1) = Ok action_dist /\
    calc_ground_truth_policy_value d (PyNdarray action_dist) = Ok v /\
    (v == accuracy_score (y_ev s) (fit_predict clf (X_tr s) (y_tr s) (X_ev s)))%Q.
Proof.
  intros clf Hr Hs Hisclf Hclf.
  pose proof (reachable_invariant d Hr) as Hinv.
  pose proof (n_actions_nonzero d Hinv) as Hc.
  destruct (labels_in_range d s Hinv Hs) as [Hlen Hrange].
  destruct (predictions_in_range d s clf Hinv Hs Hclf) as [Hplen Hprange].
  destruct (mixed_policy_spec _ _ 1%Q _ Hc Hplen Hprange ltac:(lra))
    as (pi_e & E & L & Hrows).
  change (evaluation_policy d s clf 1%Q = Ok pi_e) in E.
  set (preds := fit_predict clf (X_tr s) (y_tr s) (X_ev s)) in *.
  assert (Hsel : match base_classifier_e with
                 | None => Ok (base_classifier_b d)
                 | Some c => if is_classifier c then Ok c else Raise AssertionError
                 end = Ok clf).
  { subst clf. destruct base_classifier_e as [c|]; [|reflexivity].
    now rewrite (Hisclf c eq_refl). }
  assert (Huni : Forall (fun r => length r = n_actions d) pi_e).
  { apply Forall_forall. intros r Hin.
    destruct (In_nth _ _ [] Hin) as (i & Hi & <-). rewrite L in Hi.
    now destruct (Hrows i Hi) as ([R _] & _). }
  exists (expand_dims (n_rounds_ev s) (n_actions d) pi_e). eexists.
  split; [|split].
  - unfold obtain_action_dist_by_eval_policy. simpl Qle_bool. simpl andb.
    cbv iota. simpl negb. cbv iota. rewrite Hsel. simpl. rewrite Hs, E.
    reflexivity.
  - apply (ground_truth_value d s _ Hinv Hs).
    + reflexivity.
    + simpl. rewrite (concat_uniform_length _ _ Huni). now rewrite L.
  - unfold accuracy_score. apply mean_pointwise.
    + rewrite !length_map, !length_combine, length_seq, length_map. lia.
    + intros i Hi.
      rewrite length_map, length_combine, length_seq, length_map in Hi.
      assert (Hin : (i < n_rounds_ev s)%nat) by lia.
      rewrite (nth_combine_seq _ _ _ i (Z.to_nat 0)) by (rewrite ?length_map; lia).
      cbn [fst snd data expand_dims]. rewrite (map_nth Z.to_nat).
      rewrite Forall_forall in Hrange.
      assert (Hy : 0 <= nth i (y_ev s) 0 < Z.of_nat (n_actions d))
        by (apply Hrange, nth_In; lia).
      rewrite nth_concat_uniform by (auto; lia).
      destruct (Hrows i Hin) as ([_ Hcell] & _).
      rewrite Hcell by lia. rewrite Z2Nat.id by lia.
      set (h := fun tp : Z * Z => if fst tp =? snd tp then 1%Q else 0%Q).
      rewrite (nth_indep _ 0%Q (h (0, 0))) by (rewrite length_map, length_combine; lia).
      rewrite map_nth, combine_nth by lia.
      unfold h. cbn [fst snd].
      pose proof (of_nat_pos _ Hc).
      destruct (nth i (y_ev s) 0 =? nth i preds 0); field; lra.
Qed.

Lemma deterministic_policy_value_is_accuracy_example :
  exists action_dist v,
    obtain_action_dist_by_eval_policy example_dataset None (PyFloat 1) = Ok action_dist /\
    calc_ground_truth_policy_value example_dataset (PyNdarray action_dist) = Ok v /\
    (v == accuracy_score (y_ev example_split)
            (fit_predict first_label_classifier (X_tr example_split)
               (y_tr example_split) (X_ev example_split)))%Q.
Proof.
  apply (deterministic_policy_value_is_accuracy lcg example_dataset example_split None).
  - exact example_dataset_reachable.
  - reflexivity.
  - discriminate.
  - exact example_classifier_contract.
Defined.

(** ** The reward matrix *)

(** What line 163 stores: row [i] is one-hot at the column that the raw
    label of sample [i] denotes as an index into [n_actions] columns. *)
Lemma y_full_rows (X0 : matrix) (y0 : list Z) (clf : Estimator) (alpha : pynum)
  (d : Dataset) :
  post_init X0 y0 clf alpha = Ok d ->
  exists js,
    mapM (normalize_index (n_actions d)) y0 = Ok js /\
    y_full d = map (fun j => set_nth j 1%Q (repeat 0%Q (n_actions d))) js.
Proof.
  intros Hd. apply post_init_Ok in Hd.
  destruct Hd as (a & full & _ & _ & _ & _ & _ & Hfull & ->).
  unfold n_actions. simpl.
  rewrite set_cells_arange in Hfull
    by (rewrite ?reindex_length; auto; unfold zeros; now rewrite repeat_length).
  destruct (mapM _ y0) as [js|e] eqn:E; simpl in Hfull; [|discriminate].
  injection Hfull as <-. exists js. split; [reflexivity|].
  apply mapM_Ok_length in E. unfold zeros.
  rewrite reindex_length, <- E. apply combine_repeat_map.
Qed.

(** When the labels are their own dense ranks, raw and normalized label
    coincide and every row of the reward matrix is one-hot at the normalized
    label. *)
Lemma y_full_one_hot_of_dense_labels (X0 : matrix) (y0 : list Z) (clf : Estimator)
  (alpha : pynum) (d : Dataset) (i a : nat) :
  post_init X0 y0 clf alpha = Ok d -> reindex y0 = y0 ->
  (i < n_rounds d)%nat -> (a < n_actions d)%nat ->
  nth a (nth i (y_full d) []) 0%Q
  = if Z.of_nat a =? nth i (y d) 0 then 1%Q else 0%Q.
Proof.
  intros Hd Hdense Hi Ha.
  destruct (y_full_rows _ _ _ _ _ Hd) as (js & Hjs & ->).
  pose proof (post_init_invariant _ _ _ _ _ Hd) as [(_ & _ & Hv & _) _].
  apply post_init_Ok in Hd.
  destruct Hd as (al & full & _ & _ & _ & _ & _ & _ & ->).
  unfold n_rounds, n_actions in *. simpl in *. rewrite Hdense in *.
  rewrite (mapM_total _ Z.to_nat) in Hjs.
  2:{ apply Forall_forall. intros v Hin.
      apply normalize_index_in_range. now apply Hv. }
  injection Hjs as <-.
  set (f := fun j : nat => set_nth j 1%Q (repeat 0%Q (length (Np.unique y0)))).
  rewrite (nth_indep _ [] (f (Z.to_nat 0))) by (rewrite !length_map; lia).
  rewrite map_map, (map_nth (fun v => f (Z.to_nat v))).
  assert (Hy : 0 <= nth i y0 0 < Z.of_nat (length (Np.unique y0)))
    by (apply Hv, nth_In; lia).
  unfold f. rewrite set_nth_nth by (rewrite repeat_length; lia).
  rewrite nth_repeat_lt by exact Ha.
  destruct (Nat.eqb_spec a (Z.to_nat (nth i y0 0))) as [->|Hne].
  - now rewrite Z2Nat.id, Z.eqb_refl by lia.
  - destruct (Z.eqb_spec (Z.of_nat a) (nth i y0 0)) as [E|_]; [|reflexivity].
    exfalso. apply Hne. rewrite <- E. now rewrite Nat2Z.id.
Qed.

(** C1 (the code departs from it): with the labels [-1, 1] the constructor
    stores the normalized labels [0, 1] and a reward matrix whose two rows
    both have their 1 in column 1, so row 0 is not one-hot at its normalized
    label 0; with the labels [1, 2] the constructor raises [IndexError]. *)
Theorem one_hot_is_indexed_by_raw_label :
  (exists d,
     post_init two_rows [-1; 1] first_label_classifier (PyFloat (4 # 5)) = Ok d /\
     y d = [0; 1] /\
     y_full d = [[0%Q; 1%Q]; [0%Q; 1%Q]]) /\
  post_init two_rows [1; 2] first_label_classifier (PyFloat (4 # 5))
  = Raise IndexError.
Proof.
  split; [|reflexivity].
  eexists. split; [reflexivity|]. split; reflexivity.
Qed.

Lemma take_nth {A : Type} (l : list A) (idx : list nat) (r : list A) (d : A)
  (i : nat) :
  take l idx = Ok r -> (i < length idx)%nat ->
  nth_error l (nth i idx O) = Some (nth i r d).
Proof.
  intros Ht Hi. unfold take in Ht.
  pose proof (mapM_Ok_nth _ _ _ O d i Ht Hi) as H. simpl in H.
  destruct (nth_error l (nth i idx O)); [now injection H as -> | discriminate].
Qed.

(** C2 (the code departs from it): on the four samples labelled
    [-1, 0, -1, 0], whatever the classifier, the split, the generator and
    the seeds, every returned feedback has [reward[i] = 1] exactly when the
    sampled [action[i]] differs from the normalized label of evaluation row
    [i]. *)
Theorem reward_reads_raw_label_cell (G : Generator) (clf : Estimator)
  (alpha eval_size : pynum) (seed1 seed2 : option Z) (g g1 g2 : RandomState G)
  (d0 d : Dataset) (s : SplitState) (fb : Feedback.t) :
  post_init four_rows signed_labels clf alpha = Ok d0 ->
  split_train_eval d0 eval_size seed1 g = (Ok d, g1) ->
  split_state d = Some s ->
  obtain_batch_bandit_feedback d seed2 g1 = (Ok fb, g2) ->
  forall i, (i < n_rounds_ev s)%nat ->
    (nth i (Feedback.reward fb) 0%Q = 1%Q \/ nth i (Feedback.reward fb) 0%Q = 0%Q) /\
    (nth i (Feedback.reward fb) 0%Q = 1%Q <->
     nth i (Feedback.action fb) 0 <> nth i (y_ev s) 0).
Proof.
  intros Hinit Hsplit Hs Hfb i Hi.
  apply post_init_Ok in Hinit.
  destruct Hinit as (a & full & _ & _ & _ & _ & _ & Hfull & ->).
  vm_compute in Hfull. injection Hfull as <-.
  apply split_train_eval_Ok in Hsplit.
  destruct Hsplit as (s' & itr & ite & -> & Hn & _ & Hxev & _ & Hyev & Hfev).
  simpl in Hs. assert (s' = s) by congruence. subst s'. clear Hs.
  simpl in Hyev, Hfev.
  apply obtain_batch_bandit_feedback_Ok in Hfb.
  destruct Hfb as (s' & pi_b & r & Hs' & _ & L & F). simpl in Hs'.
  assert (s' = s) by congruence. subst s'. clear Hs'.
  destruct (sample_feedback _ s pi_b r) as [res r'] eqn:SF. simpl in F. subst res.
  destruct (sample_feedback_Ok G _ s pi_b r r' fb L SF)
    as (_ & _ & _ & _ & _ & _ & _ & Hrows).
  destruct (Hrows i Hi) as (Ha & Hrew & _).
  change (Z.of_nat (n_actions _)) with 2 in Ha.
  assert (Hlen : (i < length ite)%nat).
  { apply take_Ok in Hxev. destruct Hxev as [Hl _]. lia. }
  pose proof (take_nth _ _ _ 0 i Hyev Hlen) as Hy.
  pose proof (take_nth _ _ _ [] i Hfev Hlen) as Hf.
  rewrite Hrew.
  change (reindex signed_labels) with [0; 1; 0; 1] in Hy.
  destruct (nth i ite O) as [|[|[|[|k]]]]; simpl in Hy, Hf;
    try (destruct k; discriminate Hy);
    injection Hy as <-; injection Hf as <-;
    assert (Hcase : nth i (Feedback.action fb) 0 = 0 \/ nth i (Feedback.action fb) 0 = 1)
      by lia;
    destruct Hcase as [-> | ->]; simpl;
    (split; [auto | split; [intros H; try discriminate H; lia
                           | intros H; try reflexivity; lia]]).
Qed.

(** ** The theorems on concrete data *)

Lemma synthesized_policy_rows_example :
  reachable lcg example_dataset /\
  split_state example_dataset = Some example_split /\
  predicts_training_labels (base_classifier_b example_dataset) example_split /\
  exists pi_b,
    behavior_policy example_dataset example_split = Ok pi_b /\
    forall i, (i < 2)%nat ->
      (qsum (nth i pi_b []) == 1)%Q /\
      Forall (fun q => 0 < q)%Q (nth i pi_b []).
Proof.
  split; [exact example_dataset_reachable|].
  split; [reflexivity|].
  split; [exact example_classifier_contract|].
  destruct (synthesized_policy_rows lcg example_dataset example_split
              example_dataset_reachable eq_refl) as [Hb _].
  destruct (Hb example_classifier_contract) as (pi_b & E & _ & Hrows).
  exists pi_b. split; [exact E|].
  intros i Hi. destruct (Hrows i Hi) as (_ & R2 & _ & R4). now split.
Defined.

Lemma pscore_is_behavior_probability_example :
  reachable lcg example_dataset /\
  split_state example_dataset = Some example_split /\
  exists fb g' pi_b,
    obtain_batch_bandit_feedback (G := lcg) example_dataset (Some 3) 0 = (Ok fb, g') /\
    behavior_policy example_dataset example_split = Ok pi_b /\
    forall i, (i < 2)%nat ->
      nth i (Feedback.pscore fb) 0%Q
      = nth (Z.to_nat (nth i (Feedback.action fb) 0)) (nth i pi_b []) 0%Q.
Proof.
  split; [exact example_dataset_reachable|].
  split; [reflexivity|].
  destruct (pscore_is_behavior_probability lcg example_dataset example_split
              (Some 3) 0 example_dataset_reachable eq_refl) as [Hret Hps].
  destruct (Hret example_classifier_contract lcg_uniform_draws eq_refl)
    as (fb & g' & E).
  destruct (Hps fb g' E) as (pi_b & B & _ & _ & Hrows).
  exists fb, g', pi_b. split; [exact E|]. split; [exact B|].
  intros i Hi. now apply Hrows.
Defined.

Lemma sampling_is_deterministic_given_seed_example :
  sampled (fst (obtain_batch_bandit_feedback (G := lcg) example_dataset (Some 3) 0))
  = sampled (fst (obtain_batch_bandit_feedback (G := lcg) example_dataset (Some 3) 11)) /\
  snd (obtain_batch_bandit_feedback (G := lcg) example_dataset (Some 3) 0) = 0 /\
  snd (obtain_batch_bandit_feedback (G := lcg) example_dataset (Some 3) 11) = 11.
Proof.
  apply (sampling_is_deterministic_given_seed lcg example_dataset example_dataset
           example_split example_split 3 0 11); reflexivity.
Defined.

Lemma operations_fail_before_split_example :
  split_state example_constructed = None /\
  obtain_batch_bandit_feedback (G := lcg) example_constructed (Some 3) 0
  = (Raise AttributeError, 0) /\
  calc_ground_truth_policy_value example_constructed (PyNdarray two_positions)
  = Raise AttributeError.
Proof.
  split; [reflexivity|].
  destruct (operations_fail_before_split lcg example_constructed (Some 3) 0
              (PyNdarray two_positions) eq_refl) as (_ & Hfb & _ & Hgt).
  split; [apply Hfb; reflexivity | apply (Hgt two_positions); reflexivity].
Defined.

Lemma ground_truth_checks_rank_and_rows_example :
  reachable lcg example_dataset /\
  split_state example_dataset = Some example_split /\
  calc_ground_truth_policy_value example_dataset
    (PyNdarray {| shape := [2; 2]%nat; data := [1%Q; 0%Q; 0%Q; 1%Q] |})
  = Raise ValueError /\
  calc_ground_truth_policy_value example_dataset
    (PyNdarray {| shape := [3; 2; 1]%nat; data := [1%Q; 0%Q; 0%Q; 1%Q; 1%Q; 0%Q] |})
  = Raise ValueError.
Proof.
  split; [exact example_dataset_reachable|].
  split; [reflexivity|].
  destruct (ground_truth_checks_rank_and_rows lcg example_dataset example_split
              example_dataset_reachable eq_refl) as (_ & H2 & H3 & _).
  split; [apply H2; discriminate | apply H3; [reflexivity | discriminate]].
Defined.

Lemma signed_dataset_run :
  post_init four_rows signed_labels first_label_classifier (PyFloat (4 # 5))
  = Ok signed_constructed /\
  split_train_eval (G := lcg) signed_constructed (PyInt 2) (Some 7) 0
  = (Ok signed_dataset, 0) /\
  obtain_batch_bandit_feedback (G := lcg) signed_dataset (Some 3) 0
  = (Ok signed_feedback, 0).
Proof. repeat split; reflexivity. Defined.

Lemma reward_reads_raw_label_cell_example :
  nth 0 (Feedback.reward signed_feedback) 0%Q = 1%Q /\
  nth 0 (Feedback.action signed_feedback) 0 <> nth 0 (y_ev signed_split) 0.
Proof.
  destruct signed_dataset_run as (H1 & H2 & H3).
  destruct (reward_reads_raw_label_cell lcg first_label_classifier
              (PyFloat (4 # 5)) (PyInt 2) (Some 7) (Some 3) 0 0 0
              signed_constructed signed_dataset signed_split signed_feedback
              H1 H2 eq_refl H3 O ltac:(simpl; lia)) as [_ Hiff].
  split; [reflexivity | apply Hiff; reflexivity].
Defined.

(** * Further properties of the class *)

(** ** The constructor *)




Lemma check_X_y_Ok (X0 : matrix) (y0 : list Z) (r : matrix * list Z) :
  check_X_y X0 y0 = Ok r ->
  r = (X0, y0) /\ X0 <> [] /\ length X0 = length y0.
Proof.
  unfold check_X_y. destruct X0 as [|row rest]; [discriminate|].
  destruct (Nat.eqb (length row) 0); [discriminate|].
  destruct (negb (forallb _ _)); [discriminate|].
  destruct (Nat.eqb_spec (length (row :: rest)) (length y0)) as [E|]; [|discriminate].
  intros [= <-]. repeat split; [discriminate | exact E].
Qed.



(** ** Shapes kept by every reachable state *)

Lemma mapM_Ok_Forall {A B : Type} (f : A -> result B) (P : B -> Prop) (l : list A)
  (r : list B) :
  (forall a b, f a = Ok b -> P b) -> mapM f l = Ok r -> Forall P r.
Proof.
  intros Hf. revert r. induction l as [|a t IH]; simpl; intros r.
  - intros [= <-]. constructor.
  - destruct (f a) as [b|] eqn:E; simpl; [|discriminate].
    destruct (mapM f t) as [bs|]; simpl; [|discriminate].
    intros [= <-]. constructor; [eapply Hf; eassumption | now apply IH].
Qed.

Lemma one_hot_set_nth (c j : nat) :
  (j < c)%nat -> one_hot c (set_nth j 1%Q (repeat 0%Q c)).
Proof.
  intros Hj. split; [now rewrite set_nth_length, repeat_length|].
  exists j. split; [exact Hj|]. intros a Ha.
  rewrite set_nth_nth by (now rewrite repeat_length).
  destruct (Nat.eqb a j); [reflexivity | now apply nth_repeat_lt].
Qed.

Lemma one_hot_sum (c : nat) (row : list Q) : one_hot c row -> (qsum row == 1)%Q.
Proof.
  intros [Hlen (j & Hj & Hcell)].
  assert (Hrow : row = set_nth j 1%Q (repeat 0%Q c)).
  { apply (nth_ext _ _ 0%Q 0%Q).
    - now rewrite set_nth_length, repeat_length.
    - intros a Ha. rewrite Hlen in Ha. rewrite (Hcell a Ha).
      rewrite set_nth_nth by (now rewrite repeat_length).
      destruct (Nat.eqb a j); [reflexivity|]. symmetry. now apply nth_repeat_lt. }
  rewrite Hrow, qsum_set_nth by (now rewrite repeat_length).
  rewrite nth_repeat_lt by exact Hj. rewrite qsum_repeat. ring.
Qed.

Lemma one_hot_cell (c : nat) (row : list Q) (a : nat) :
  one_hot c row -> (a < c)%nat -> nth a row 0%Q = 1%Q \/ nth a row 0%Q = 0%Q.
Proof.
  intros [_ (j & _ & Hcell)] Ha. rewrite (Hcell a Ha).
  destruct (Nat.eqb a j); auto.
Qed.

Lemma unique_length_le (l : list Z) : (length (Np.unique l) <= length l)%nat.
Proof.
  apply NoDup_incl_length; [apply unique_NoDup|].
  intros x Hx. now apply unique_In.
Qed.

(** The shapes of the attributes, kept by construction and by every
    split. *)
Lemma reachable_shapes {G : Generator} (d : Dataset) :
  reachable G d ->
  length (X d) = length (y d) /\
  length (y_full d) = length (y d) /\
  Forall (one_hot (n_actions d)) (y_full d) /\
  match split_state d with
  | None => True
  | Some s =>
      length (X_tr s) = length (y_tr s) /\
      length (X_ev s) = n_rounds_ev s /\
      Forall (one_hot (n_actions d)) (y_full_ev s)
  end.
Proof.
  induction 1 as [X0 y0 clf alpha d Hd | d es seed g d' g' _ IH Hs].
  - destruct (y_full_rows _ _ _ _ _ Hd) as (js & Hjs & Hfull).
    pose proof (mapM_Ok_length _ _ _ Hjs) as Hlen.
    pose proof (mapM_Ok_Forall _ (fun j => (j < n_actions d)%nat) _ _
                  (fun a b E => proj1 (normalize_index_Ok _ _ _ E)) Hjs) as Hlt.
    rewrite Hfull.
    apply post_init_Ok in Hd.
    destruct Hd as (a & full & _ & _ & _ & _ & Hchk & _ & ->).
    apply check_X_y_Ok in Hchk. destruct Hchk as (_ & _ & HXy).
    simpl. rewrite reindex_length, length_map.
    repeat split; try lia.
    apply Forall_map. eapply Forall_impl; [|exact Hlt].
    intros j Hj. now apply one_hot_set_nth.
  - apply split_train_eval_Ok in Hs.
    destruct Hs as (s & itr & ite & -> & Hn & Hxtr & Hxev & Hytr & Hyev & Hfev).
    destruct IH as (H1 & H2 & H3 & _). unfold n_actions in *. simpl.
    apply take_Ok in Hxtr, Hxev, Hytr, Hyev, Hfev.
    repeat split; try assumption; try lia.
    destruct Hfev as [_ Hin]. rewrite Forall_forall in *.
    intros row Hrow. apply H3, Hin, Hrow.
Qed.

(** X2: in every reachable state the feature matrix and the reward matrix
    have [n_rounds] rows, there is at least one action and no more actions
    than rounds, and every row of the reward matrix has [n_actions] entries,
    one of them 1 and the others 0, so it sums to exactly one. *)
Theorem reachable_state_shapes (G : Generator) (d : Dataset) :
  reachable G d ->
  length (X d) = n_rounds d /\
  length (y_full d) = n_rounds d /\
  (1 <= n_actions d <= n_rounds d)%nat /\
  Forall (fun row => one_hot (n_actions d) row /\ (qsum row == 1)%Q) (y_full d).
Proof.
  intros Hr. destruct (reachable_shapes d Hr) as (H1 & H2 & H3 & _).
  pose proof (n_actions_nonzero d (reachable_invariant d Hr)) as Hc.
  unfold n_rounds. repeat split; try assumption; try lia.
  - apply unique_length_le.
  - eapply Forall_impl; [|exact H3]. intros row Hrow.
    split; [exact Hrow | eapply one_hot_sum; eassumption].
Qed.

Lemma reachable_state_shapes_example :
  reachable lcg example_dataset /\
  length (y_full example_dataset) = n_rounds example_dataset /\
  Forall (fun row => (qsum row == 1)%Q) (y_full example_dataset).
Proof.
  split; [exact example_dataset_reachable|].
  destruct (reachable_state_shapes lcg example_dataset example_dataset_reachable)
    as (_ & H2 & _ & H4).
  split; [exact H2|].
  eapply Forall_impl; [|exact H4]. intros row [_ Hs]. exact Hs.
Defined.

(** ** The split *)

Lemma take_map {A : Type} (l : list A) (idx : list nat) (r : list A) (d : A) :
  take l idx = Ok r ->
  r = map (fun i => nth i l d) idx /\ Forall (fun i => (i < length l)%nat) idx.
Proof.
  unfold take. revert r. induction idx as [|i idx IH]; simpl; intros r.
  - intros [= <-]. split; [reflexivity | constructor].
  - destruct (nth_error l i) as [a|] eqn:E; simpl; [|discriminate].
    destruct (mapM _ idx) as [t|e]; simpl; [|discriminate].
    intros [= <-]. destruct (IH t eq_refl) as [-> Hf].
    split.
    + f_equal. symmetry. now apply nth_error_nth.
    + constructor; [|exact Hf]. apply nth_error_Some. congruence.
Qed.


Lemma map_nth_seq {A : Type} (l : list A) (d : A) :
  map (fun i => nth i l d) (seq 0 (length l)) = l.
Proof.
  apply (nth_ext _ _ d d).
  - now rewrite length_map, length_seq.
  - intros i Hi. rewrite length_map, length_seq in Hi.
    set (f := fun i : nat => nth i l d).
    rewrite (nth_indep _ d (f O)) by (now rewrite length_map, length_seq).
    rewrite map_nth, seq_nth by exact Hi. reflexivity.
Qed.

Lemma ceiling_pos (q : Q) : (0 < q)%Q -> 0 < Qceiling q.
Proof.
  intros Hq. rewrite Zlt_Qlt. eapply Qlt_le_trans; [exact Hq | apply Qle_ceiling].
Qed.


Lemma validate_shuffle_split_Ok (n : nat) (es : pynum) (ntr nte : nat) :
  validate_shuffle_split n es = Ok (ntr, nte) ->
  eval_size_ok n es /\ nte = requested_eval_rows n es /\
  (ntr + nte = n)%nat /\ (0 < nte)%nat /\ (0 < ntr)%nat.
Proof.
  unfold validate_shuffle_split, eval_size_ok, requested_eval_rows.
  destruct es as [k|f].
  - destruct (Z.leb_spec (Z.of_nat n) k); simpl; [discriminate|].
    destruct (Z.leb_spec k 0); simpl; [discriminate|].
    destruct (Nat.eqb_spec (n - Z.to_nat k) 0); [discriminate|].
    intros [= <- <-]. lia.
  - destruct (Qle_bool f 0) eqn:E0; simpl; [discriminate|].
    destruct (Qle_bool 1 f) eqn:E1; simpl; [discriminate|].
    destruct (Nat.eqb_spec (n - Z.to_nat (Qceiling (f * of_nat n))) 0);
      [discriminate|].
    intros [= <- <-].
    assert (Hf0 : (0 < f)%Q).
    { apply Qnot_le_lt. intros H. apply Qle_bool_iff in H. congruence. }
    assert (Hf1 : (f < 1)%Q).
    { apply Qnot_le_lt. intros H. apply Qle_bool_iff in H. congruence. }
    assert (Hn : n <> O) by lia.
    pose proof (ceiling_pos _ (Qmult_lt_0_compat _ _ Hf0 (of_nat_pos n Hn))).
    repeat split; try assumption; lia.
Qed.



(** What a successful split has computed. *)
Lemma split_train_eval_inv {G : Generator} (d : Dataset) (es : pynum)
  (seed : option Z) (g g' : RandomState G) (d' : Dataset) :
  split_train_eval d es seed g = (Ok d', g') ->
  exists ntr nte r s,
    validate_shuffle_split (length (X d)) es = Ok (ntr, nte) /\
    usable_seed seed /\
    (r, g') = match seed with
              | None => (g, snd (permutation G g (length (X d))))
              | Some z => (seeded G z, g)
              end /\
    d' = {| X := X d; y := y d; base_classifier_b := base_classifier_b d;
            alpha_b := alpha_b d; y_full := y_full d; split_state := Some s |} /\
    n_rounds_ev s = length (X_ev s) /\
    let perm := fst (permutation G r (length (X d))) in
    let ind_test := firstn nte perm in
    let ind_train := firstn ntr (skipn nte perm) in
    take (X d) ind_train = Ok (X_tr s) /\ take (X d) ind_test = Ok (X_ev s) /\
    take (y d) ind_train = Ok (y_tr s) /\ take (y d) ind_test = Ok (y_ev s) /\
    take (y_full d) ind_test = Ok (y_full_ev s).
Proof.
  unfold split_train_eval.
  destruct (validate_shuffle_split _ _) as [[ntr nte]|e]; [|discriminate].
  set (body := fun r : RandomState G => _).
  intros H.
  assert (Hbody : forall r a r1, body r = (Ok a, r1) ->
    r1 = snd (permutation G r (length (X d))) /\
    exists s,
      a = {| X := X d; y := y d; base_classifier_b := base_classifier_b d;
             alpha_b := alpha_b d; y_full := y_full d; split_state := Some s |} /\
      n_rounds_ev s = length (X_ev s) /\
      take (X d) (firstn ntr (skipn nte (fst (permutation G r (length (X d))))))
      = Ok (X_tr s) /\
      take (X d) (firstn nte (fst (permutation G r (length (X d))))) = Ok (X_ev s) /\
      take (y d) (firstn ntr (skipn nte (fst (permutation G r (length (X d))))))
      = Ok (y_tr s) /\
      take (y d) (firstn nte (fst (permutation G r (length (X d))))) = Ok (y_ev s) /\
      take (y_full d) (firstn nte (fst (permutation G r (length (X d)))))
      = Ok (y_full_ev s)).
  { intros r a r1. unfold body.
    destruct (permutation G r (length (X d))) as [perm r2]. simpl fst. simpl snd.
    destruct (take (X d) (firstn ntr (skipn nte perm))) as [xtr|] eqn:E1; simpl;
      [|discriminate].
    destruct (take (X d) (firstn nte perm)) as [xev|] eqn:E2; simpl; [|discriminate].
    destruct (take (y d) (firstn ntr (skipn nte perm))) as [ytr|] eqn:E3; simpl;
      [|discriminate].
    destruct (take (y d) (firstn nte perm)) as [yev|] eqn:E4; simpl; [|discriminate].
    destruct (take (y_full d) (firstn nte perm)) as [fev|] eqn:E5; simpl;
      [|discriminate].
    intros [= <- <-]. split; [reflexivity|].
    eexists. split; [reflexivity|]. simpl. repeat split; reflexivity. }
  unfold with_random_state in H. destruct seed as [z|].
  - destruct (valid_seed z) eqn:V; [|discriminate].
    destruct (body (seeded G z)) as [a r1] eqn:B. simpl in H.
    injection H as -> <-.
    destruct (Hbody _ _ _ B) as [_ (s & Hs)].
    exists ntr, nte, (seeded G z), s.
    split; [reflexivity|]. split; [exact V|]. split; [reflexivity|]. exact Hs.
  - destruct (Hbody _ _ _ H) as [-> (s & Hs)].
    exists ntr, nte, g, s.
    split; [reflexivity|]. split; [exact I|]. split; [reflexivity|]. exact Hs.
Qed.

Lemma shuffled_indices {G : Generator} (r : RandomState G) (n ntr nte : nat) :
  shuffles G -> (ntr + nte = n)%nat ->
  let perm := fst (permutation G r n) in
  firstn ntr (skipn nte perm) = skipn nte perm /\
  length (firstn nte perm) = nte /\ length (skipn nte perm) = ntr /\
  Permutation (firstn nte perm ++ skipn nte perm) (seq 0 n) /\
  Forall (fun i => (i < n)%nat) perm.
Proof.
  intros Hsh Hn perm. pose proof (Hsh r n) as Hp. fold perm in Hp.
  assert (Hlen : length perm = n)
    by (rewrite (Permutation_length Hp); apply length_seq).
  split; [apply firstn_all2; rewrite length_skipn; lia|].
  split; [rewrite length_firstn; lia|].
  split; [rewrite length_skipn; lia|].
  split; [now rewrite firstn_skipn|].
  apply Forall_forall. intros i Hi.
  apply (Permutation_in _ Hp) in Hi. apply in_seq in Hi. lia.
Qed.



Lemma combine_map_same {A B C : Type} (f : A -> B) (h : A -> C) (l : list A) :
  combine (map f l) (map h l) = map (fun a => (f a, h a)) l.
Proof. induction l; simpl; congruence. Qed.

(** X3: a successful split (the generator's [permutation] being one)
    leaves [X], [y] and [y_full] as they were and deals every sample to
    exactly one of the two partitions: the (feature row, label) pairs of the
    evaluation partition followed by those of the training partition are a
    rearrangement of the dataset's pairs.  Every evaluation row keeps its
    own label and its own row of the reward matrix. *)
Theorem split_partitions_the_samples (G : Generator) (d d' : Dataset)
  (eval_size : pynum) (seed : option Z) (g g' : RandomState G) :
  reachable G d -> shuffles G ->
  split_train_eval d eval_size seed g = (Ok d', g') ->
  exists s,
    split_state d' = Some s /\
    X d' = X d /\ y d' = y d /\ y_full d' = y_full d /\
    Permutation (combine (X_ev s ++ X_tr s) (y_ev s ++ y_tr s))
                (combine (X d) (y d)) /\
    forall i, (i < n_rounds_ev s)%nat ->
      exists k, (k < n_rounds d)%nat /\
        nth i (X_ev s) [] = nth k (X d) [] /\
        nth i (y_ev s) 0 = nth k (y d) 0 /\
        nth i (y_full_ev s) [] = nth k (y_full d) [].
Proof.
  intros Hr Hsh Hs.
  destruct (reachable_shapes d Hr) as (HX & HF & _).
  apply split_train_eval_inv in Hs.
  destruct Hs as (ntr & nte & r & s & Hv & _ & _ & -> & Hn & Ht).
  cbv zeta in Ht. destruct Ht as (Hxtr & Hxev & Hytr & Hyev & Hfev).
  apply validate_shuffle_split_Ok in Hv. destruct Hv as (_ & _ & Hsum & _ & _).
  destruct (shuffled_indices r (length (X d)) ntr nte Hsh Hsum)
    as (Htr & Hlte & _ & Hperm & _).
  rewrite Htr in Hxtr, Hytr.
  set (perm := fst (permutation G r (length (X d)))) in *.
  destruct (take_map _ _ _ [] Hxtr) as [Extr _].
  destruct (take_map _ _ _ [] Hxev) as [Exev Hlt].
  destruct (take_map _ _ _ 0 Hytr) as [Eytr _].
  destruct (take_map _ _ _ 0 Hyev) as [Eyev _].
  destruct (take_map _ _ _ [] Hfev) as [Efev _].
  exists s. simpl. repeat split.
  - rewrite Extr, Exev, Eytr, Eyev, <- !map_app, combine_map_same.
    assert (Hc : combine (X d) (y d)
                 = map (fun a => (nth a (X d) [], nth a (y d) 0))
                       (seq 0 (length (X d)))).
    { rewrite <- combine_map_same, (map_nth_seq (X d)), HX, (map_nth_seq (y d)).
      reflexivity. }
    rewrite Hc. apply Permutation_map. exact Hperm.
  - intros i Hi.
    assert (Hi' : (i < length (firstn nte perm))%nat).
    { rewrite Hn, Exev, length_map in Hi. exact Hi. }
    exists (nth i (firstn nte perm) O).
    rewrite Forall_forall in Hlt.
    split; [unfold n_rounds; rewrite <- HX; apply Hlt, nth_In, Hi'|].
    rewrite Exev, Eyev, Efev.
    set (fX := fun k : nat => nth k (X d) []).
    set (fy := fun k : nat => nth k (y d) 0).
    set (fF := fun k : nat => nth k (y_full d) []).
    rewrite (nth_indep (map fX _) [] (fX O)) by (now rewrite length_map).
    rewrite (nth_indep (map fy _) 0 (fy O)) by (now rewrite length_map).
    rewrite (nth_indep (map fF _) [] (fF O)) by (now rewrite length_map).
    rewrite !map_nth. repeat split; reflexivity.
Qed.




(** X6: splitting again starts from the dataset, not from the previous
    partition: after any successful split, a further split behaves as the
    same call on the state before that split. *)
Theorem resplit_ignores_previous_split (G : Generator) (d0 d1 : Dataset)
  (es1 es : pynum) (seed1 seed : option Z) (g1 g1' g : RandomState G) :
  split_train_eval d0 es1 seed1 g1 = (Ok d1, g1') ->
  split_train_eval d1 es seed g = split_train_eval d0 es seed g.
Proof.
  intros H. apply split_train_eval_Ok in H.
  destruct H as (s & itr & ite & -> & _). reflexivity.
Qed.

Lemma lcg_shuffles : shuffles lcg.
Proof.
  intros r n. simpl.
  rewrite Permutation_app_comm. now rewrite firstn_skipn.
Defined.

Lemma example_constructed_reachable : reachable lcg example_constructed.
Proof. eapply reach_init. exact example_constructed_init. Defined.

Lemma split_partitions_the_samples_example :
  reachable lcg example_constructed /\
  split_train_eval (G := lcg) example_constructed (PyInt 2) (Some 7) 0
  = (Ok example_dataset, 0) /\
  Permutation
    (combine (X_ev example_split ++ X_tr example_split)
             (y_ev example_split ++ y_tr example_split))
    (combine (X example_constructed) (y example_constructed)).
Proof.
  split; [exact example_constructed_reachable|].
  split; [exact example_dataset_split|].
  destruct (split_partitions_the_samples lcg example_constructed example_dataset
              (PyInt 2) (Some 7) 0 0 example_constructed_reachable lcg_shuffles
              example_dataset_split) as (s & Hs & _ & _ & _ & Hperm & _).
  injection Hs as <-. exact Hperm.
Defined.



Lemma resplit_ignores_previous_split_example :
  split_train_eval (G := lcg) example_dataset (PyInt 1) (Some 3) 0
  = split_train_eval (G := lcg) example_constructed (PyInt 1) (Some 3) 0.
Proof.
  exact (resplit_ignores_previous_split lcg example_constructed example_dataset
           (PyInt 2) (PyInt 1) (Some 7) (Some 3) 0 0 0 example_dataset_split).
Defined.

(** ** The feedback dictionary, field by field *)

(** X7: the dictionary that sampling returns on a reachable state reports
    the dataset's number of actions and the size of the evaluation
    partition, carries the evaluation features as [context] and no
    [position], and holds one action, one reward and one propensity per
    context row. *)
Theorem feedback_dictionary_layout (G : Generator) (d : Dataset) (s : SplitState)
  (seed : option Z) (g g' : RandomState G) (fb : Feedback.t) :
  reachable G d -> split_state d = Some s ->
  obtain_batch_bandit_feedback d seed g = (Ok fb, g') ->
  Feedback.n_actions fb = n_actions d /\
  Feedback.n_rounds fb = n_rounds_ev s /\
  Feedback.context fb = X_ev s /\
  Feedback.position fb = None /\
  length (Feedback.context fb) = Feedback.n_rounds fb /\
  length (Feedback.action fb) = Feedback.n_rounds fb /\
  length (Feedback.reward fb) = Feedback.n_rounds fb /\
  length (Feedback.pscore fb) = Feedback.n_rounds fb.
Proof.
  intros Hr Hs E.
  destruct (obtain_batch_bandit_feedback_Ok G _ _ _ _ _ E)
    as (s' & pi_b & r & Hs' & _ & L & F).
  assert (s' = s) by congruence. subst s'.
  destruct (sample_feedback d s pi_b r) as [res r'] eqn:SF. simpl in F. subst res.
  destruct (sample_feedback_Ok G d s pi_b r r' fb L SF)
    as (H1 & H2 & H3 & H4 & H5 & H6 & H7 & _).
  pose proof (reachable_shapes d Hr) as (_ & _ & _ & Hsp). rewrite Hs in Hsp.
  destruct Hsp as (_ & Hxev & _).
  rewrite H2, H3. repeat split; assumption.
Qed.

Lemma feedback_dictionary_layout_example :
  exists fb g',
    obtain_batch_bandit_feedback (G := lcg) example_dataset (Some 3) 0 = (Ok fb, g') /\
    Feedback.n_rounds fb = 2%nat /\
    length (Feedback.action fb) = Feedback.n_rounds fb.
Proof.
  destruct (obtain_batch_bandit_feedback_total lcg lcg_uniform_draws example_dataset
              example_split (Some 3) 0 example_dataset_reachable eq_refl
              example_classifier_contract eq_refl) as (fb & g' & E).
  destruct (feedback_dictionary_layout lcg example_dataset example_split (Some 3)
              0 g' fb example_dataset_reachable eq_refl E)
    as (_ & H2 & _ & _ & _ & H6 & _).
  exists fb, g'. repeat split; assumption.
Defined.

Lemma of_nat_ge_1 (c : nat) : c <> O -> (1 <= of_nat c)%Q.
Proof.
  intros Hc. unfold of_nat. change 1%Q with (inject_Z 1).
  rewrite <- Zle_Qle. lia.
Qed.

Lemma uniform_mass_le (alpha : Q) (c : nat) :
  c <> O -> (alpha <= 1)%Q -> ((1 - alpha) / of_nat c <= 1 - alpha)%Q.
Proof.
  intros Hc Ha. pose proof (of_nat_ge_1 c Hc) as H1.
  apply Qle_shift_div_r; [lra|]. nra.
Qed.

(** X8: on a reachable state whose behavior classifier keeps its contract,
    every propensity in a returned dictionary is one of two values: the
    uniform mass [(1 - alpha_b) / n_actions] when the sampled action is not
    the classifier's prediction for the row, and [alpha_b] more when it is.
    Hence every propensity is strictly positive and at most one. *)
Theorem pscore_takes_two_values (G : Generator) (d : Dataset) (s : SplitState)
  (seed : option Z) (g g' : RandomState G) (fb : Feedback.t) :
  reachable G d -> split_state d = Some s ->
  predicts_training_labels (base_classifier_b d) s ->
  obtain_batch_bandit_feedback d seed g = (Ok fb, g') ->
  forall i, (i < n_rounds_ev s)%nat ->
    let uniform := ((1 - alpha_b d) / of_nat (n_actions d))%Q in
    let pred := nth i (fit_predict (base_classifier_b d) (X_tr s) (y_tr s) (X_ev s)) 0 in
    nth i (Feedback.pscore fb) 0%Q
    = (if nth i (Feedback.action fb) 0 =? pred
       then (alpha_b d + uniform)%Q else uniform) /\
    (0 < nth i (Feedback.pscore fb) 0)%Q /\
    (nth i (Feedback.pscore fb) 0 <= 1)%Q.
Proof.
  intros Hr Hs Hclf E i Hi uniform pred.
  pose proof (reachable_invariant d Hr) as Hinv.
  pose proof (n_actions_nonzero d Hinv) as Hc.
  assert (Ha : (0 <= alpha_b d < 1)%Q) by apply Hinv.
  destruct (predictions_in_range d s _ Hinv Hs Hclf) as [Hlen Hrange].
  destruct (mixed_policy_spec _ _ (alpha_b d) _ Hc Hlen Hrange ltac:(lra))
    as (pi & Epi & _ & Hrows).
  change (behavior_policy d s = Ok pi) in Epi.
  destruct (obtain_batch_bandit_feedback_Ok G _ _ _ _ _ E)
    as (s' & pi_b & r & Hs' & B & L & F).
  assert (s' = s) by congruence. subst s'.
  assert (pi_b = pi) by congruence. subst pi_b.
  destruct (sample_feedback d s pi r) as [res r'] eqn:SF. simpl in F. subst res.
  destruct (sample_feedback_Ok G d s pi r r' fb L SF)
    as (_ & _ & _ & _ & _ & _ & _ & Hfb).
  destruct (Hfb i Hi) as (Hact & _ & ->).
  destruct (Hrows i Hi) as ([_ Hcell] & _).
  rewrite Hcell by lia. rewrite Z2Nat.id by lia. fold pred. fold uniform.
  pose proof (uniform_mass_le (alpha_b d) _ Hc ltac:(lra)) as Hle. fold uniform in Hle.
  assert (Hpos : (0 < uniform)%Q).
  { unfold uniform, Qdiv. apply Qmult_lt_0_compat; [lra|].
    apply Qinv_lt_0_compat. now apply of_nat_pos. }
  split; [reflexivity|].
  destruct (nth i (Feedback.action fb) 0 =? pred); split; lra.
Qed.

Lemma pscore_takes_two_values_example :
  exists fb g',
    obtain_batch_bandit_feedback (G := lcg) example_dataset (Some 3) 0 = (Ok fb, g') /\
    (0 < nth 0 (Feedback.pscore fb) 0)%Q /\ (nth 0 (Feedback.pscore fb) 0 <= 1)%Q.
Proof.
  destruct (obtain_batch_bandit_feedback_total lcg lcg_uniform_draws example_dataset
              example_split (Some 3) 0 example_dataset_reachable eq_refl
              example_classifier_contract eq_refl) as (fb & g' & E).
  destruct (pscore_takes_two_values lcg example_dataset example_split (Some 3)
              0 g' fb example_dataset_reachable eq_refl
              example_classifier_contract E O ltac:(simpl; lia)) as (_ & H2 & H3).
  exists fb, g'. repeat split; assumption.
Defined.

(** X9: every reward in a dictionary sampled on a reachable state is 0 or
    1. *)
Theorem reward_is_binary (G : Generator) (d : Dataset) (s : SplitState)
  (seed : option Z) (g g' : RandomState G) (fb : Feedback.t) :
  reachable G d -> split_state d = Some s ->
  obtain_batch_bandit_feedback d seed g = (Ok fb, g') ->
  Forall (fun q => q = 0%Q \/ q = 1%Q) (Feedback.reward fb).
Proof.
  intros Hr Hs E.
  destruct (obtain_batch_bandit_feedback_Ok G _ _ _ _ _ E)
    as (s' & pi_b & r & Hs' & _ & L & F).
  assert (s' = s) by congruence. subst s'.
  destruct (sample_feedback d s pi_b r) as [res r'] eqn:SF. simpl in F. subst res.
  destruct (sample_feedback_Ok G d s pi_b r r' fb L SF)
    as (_ & _ & _ & _ & _ & Hlen & _ & Hfb).
  pose proof (reachable_shapes d Hr) as (_ & _ & _ & Hsp). rewrite Hs in Hsp.
  destruct Hsp as (_ & _ & Hhot).
  pose proof (reachable_invariant d Hr) as (_ & _ & _ & Hinv). rewrite Hs in Hinv.
  destruct Hinv as (_ & _ & Hflen & _).
  apply Forall_forall. intros q Hq.
  destruct (In_nth _ _ 0%Q Hq) as (i & Hi & <-). rewrite Hlen in Hi.
  destruct (Hfb i Hi) as (Hact & -> & _).
  rewrite Forall_forall in Hhot.
  assert (Hrow : one_hot (n_actions d) (nth i (y_full_ev s) []))
    by (apply Hhot, nth_In; lia).
  destruct (one_hot_cell _ _ (Z.to_nat (nth i (Feedback.action fb) 0)) Hrow);
    [lia | now right | now left].
Qed.

Lemma reward_is_binary_example :
  exists fb g',
    obtain_batch_bandit_feedback (G := lcg) example_dataset (Some 3) 0 = (Ok fb, g') /\
    Forall (fun q => q = 0%Q \/ q = 1%Q) (Feedback.reward fb).
Proof.
  destruct (obtain_batch_bandit_feedback_total lcg lcg_uniform_draws example_dataset
              example_split (Some 3) 0 example_dataset_reachable eq_refl
              example_classifier_contract eq_refl) as (fb & g' & E).
  exists fb, g'. split; [exact E|].
  exact (reward_is_binary lcg example_dataset example_split (Some 3) 0 g' fb
           example_dataset_reachable eq_refl E).
Defined.

(** ** The process-wide generator *)

Lemma choice_state {G : Generator} (n : nat) (p : list Q) (r r' : RandomState G)
  (a : Z) :
  choice n p r = (Ok a, r') -> r' = snd (random_sample G r).
Proof.
  unfold choice.
  destruct (Nat.eqb n 0); [discriminate|].
  destruct (negb (Nat.eqb (length p) n)); [discriminate|].
  destruct (existsb _ p); [discriminate|].
  destruct (Qlt_bool atol _); [discriminate|].
  destruct (Nat.ltb _ 1); [discriminate|].
  destruct (random_sample G r) as [x r1].
  destruct (Nat.ltb _ n); [|discriminate].
  now intros [= _ <-].
Qed.

Lemma sample_actions_state {G : Generator} (n : nat) (pi : matrix) :
  forall (r r' : RandomState G) l,
  sample_actions n pi r = (Ok l, r') -> r' = after_draws G (length pi) r.
Proof.
  induction pi as [|p pi IH]; simpl; intros r r' l.
  - now intros [= _ <-].
  - destruct (choice n p r) as [[a|e] r1] eqn:C; [|discriminate].
    destruct (sample_actions n pi r1) as [[t|e] r2] eqn:S; [|discriminate].
    intros [= _ <-]. apply choice_state in C. subst r1. now apply IH in S.
Qed.

(** X10: a successful sampling call without a seed leaves the process-wide
    generator in the state reached after exactly [n_rounds_ev] uniform
    draws, one per evaluation row; a call with an integer seed leaves it
    untouched. *)
Theorem sampling_draws_once_per_row (G : Generator) (d : Dataset) (s : SplitState)
  (seed : option Z) (g g' : RandomState G) (fb : Feedback.t) :
  split_state d = Some s ->
  obtain_batch_bandit_feedback d seed g = (Ok fb, g') ->
  g' = match seed with
       | None => after_draws G (n_rounds_ev s) g
       | Some _ => g
       end.
Proof.
  intros Hs. unfold obtain_batch_bandit_feedback, with_random_state.
  rewrite Hs. destruct seed as [z|].
  - destruct (valid_seed z); now intros [= _ <-].
  - destruct (behavior_policy d s) as [pi_b|e] eqn:B; [|discriminate].
    unfold behavior_policy in B. apply mixed_policy_length in B.
    unfold sample_feedback.
    destruct (sample_actions (n_actions d) pi_b g) as [[act|e] r1] eqn:S;
      [|discriminate].
    apply sample_actions_state in S. rewrite B in S.
    destruct (get_cells _ _ (y_full_ev s) _ act); simpl; [|discriminate].
    destruct (get_cells _ _ pi_b _ act); simpl; [|discriminate].
    intros [= _ <-]. exact S.
Qed.

Lemma sampling_draws_once_per_row_example :
  exists fb,
    obtain_batch_bandit_feedback (G := lcg) example_dataset None 11
    = (Ok fb, after_draws lcg 2 11).
Proof.
  destruct (obtain_batch_bandit_feedback_total lcg lcg_uniform_draws example_dataset
              example_split None 11 example_dataset_reachable eq_refl
              example_classifier_contract I) as (fb & g' & E).
  exists fb. rewrite E. f_equal.
  exact (sampling_draws_once_per_row lcg example_dataset example_split None 11 g'
           fb eq_refl E).
Defined.

(** ** Ground truth of synthesized and supplied distributions *)

Lemma reachable_eval_nonempty {G : Generator} (d : Dataset) (s : SplitState) :
  reachable G d -> shuffles G -> split_state d = Some s ->
  (0 < n_rounds_ev s)%nat.
Proof.
  intros Hr Hsh Hs. destruct Hr as [X0 y0 clf alpha d Hd | d es seed g d' g' _ Hsp].
  - apply post_init_invariant in Hd. destruct Hd as [_ Hnone]. congruence.
  - apply split_train_eval_inv in Hsp.
    destruct Hsp as (ntr & nte & r & s' & Hv & _ & _ & -> & Hn & Ht).
    simpl in Hs. injection Hs as ->.
    cbv zeta in Ht. destruct Ht as (_ & Hxev & _).
    apply validate_shuffle_split_Ok in Hv. destruct Hv as (_ & _ & Hsum & Hte & _).
    destruct (shuffled_indices r (length (X d)) ntr nte Hsh Hsum) as (_ & Hl & _).
    apply take_Ok in Hxev. destruct Hxev as [Hlen _]. lia.
Qed.

Lemma qsum_map_affine (u a : Q) (l : list Q) :
  (qsum (map (fun x => u + a * x) l) == of_nat (length l) * u + a * qsum l)%Q.
Proof.
  induction l as [|x t IH].
  - simpl. change (of_nat 0) with 0%Q. ring.
  - simpl map. simpl qsum. simpl length. rewrite IH, of_nat_succ. ring.
Qed.

Lemma mean_map_affine (u a : Q) (l : list Q) :
  l <> [] -> (mean (map (fun x => u + a * x) l) == u + a * mean l)%Q.
Proof.
  intros Hl. unfold mean. rewrite qsum_map_affine, length_map.
  assert (Hn : length l <> O) by (destruct l; simpl; congruence).
  pose proof (of_nat_pos _ Hn). field. lra.
Qed.

(** X11: on a reachable state the action distribution synthesized with any
    [alpha_e] in [0, 1] has shape [(n_rounds_ev, n_actions, 1)] and is
    accepted by the ground-truth evaluation; its value is
    [alpha_e * accuracy + (1 - alpha_e) / n_actions], [accuracy] being the
    accuracy of the classifier on the evaluation partition.  (With
    [alpha_e = 0] this is [1 / n_actions], the value of the uniform
    policy.) *)
Theorem policy_value_of_mixture (G : Generator) (d : Dataset) (s : SplitState)
  (base_classifier_e : option Estimator) (alpha_e : Q) :
  let clf := match base_classifier_e with
             | None => base_classifier_b d
             | Some c => c
             end in
  reachable G d -> shuffles G -> split_state d = Some s ->
  (forall c, base_classifier_e = Some c -> is_classifier c = true) ->
  predicts_training_labels clf s ->
  (0 <= alpha_e)%Q -> (alpha_e <= 1)%Q ->
  exists action_dist v,
    obtain_action_dist_by_eval_policy d base_classifier_e (PyFloat alpha_e)
    = Ok action_dist /\
    shape action_dist = [n_rounds_ev s; n_actions d; 1%nat] /\
    calc_ground_truth_policy_value d (PyNdarray action_dist) = Ok v /\
    (v == alpha_e * accuracy_score (y_ev s) (fit_predict clf (X_tr s) (y_tr s) (X_ev s))
          + (1 - alpha_e) / of_nat (n_actions d))%Q.
Proof.
  intros clf Hr Hsh Hs Hisclf Hclf Ha0 Ha1.
  pose proof (reachable_invariant d Hr) as Hinv.
  pose proof (n_actions_nonzero d Hinv) as Hc.
  pose proof (reachable_eval_nonempty d s Hr Hsh Hs) as Hne.
  destruct (labels_in_range d s Hinv Hs) as [Hlen Hrange].
  destruct (predictions_in_range d s clf Hinv Hs Hclf) as [Hplen Hprange].
  destruct (mixed_policy_spec _ _ alpha_e _ Hc Hplen Hprange (conj Ha0 Ha1))
    as (pi_e & E & L & Hrows).
  change (evaluation_policy d s clf alpha_e = Ok pi_e) in E.
  set (preds := fit_predict clf (X_tr s) (y_tr s) (X_ev s)) in *.
  assert (Hsel : match base_classifier_e with
                 | None => Ok (base_classifier_b d)
                 | Some c => if is_classifier c then Ok c else Raise AssertionError
                 end = Ok clf).
  { subst clf. destruct base_classifier_e as [c|]; [|reflexivity].
    now rewrite (Hisclf c eq_refl). }
  assert (Huni : Forall (fun r => length r = n_actions d) pi_e).
  { apply Forall_forall. intros r Hin.
    destruct (In_nth _ _ [] Hin) as (i & Hi & <-). rewrite L in Hi.
    now destruct (Hrows i Hi) as ([R _] & _). }
  exists (expand_dims (n_rounds_ev s) (n_actions d) pi_e). eexists.
  split; [|split; [reflexivity|split]].
  - unfold obtain_action_dist_by_eval_policy.
    apply Qle_bool_iff in Ha0, Ha1. rewrite Ha0, Ha1. simpl.
    rewrite Hsel. simpl. rewrite Hs, E. reflexivity.
  - apply (ground_truth_value d s _ Hinv Hs).
    + reflexivity.
    + simpl. rewrite (concat_uniform_length _ _ Huni). now rewrite L.
  - set (h := fun tp : Z * Z => if fst tp =? snd tp then 1%Q else 0%Q).
    set (u := ((1 - alpha_e) / of_nat (n_actions d))%Q).
    assert (Hcomb : length (combine (y_ev s) preds) = n_rounds_ev s)
      by (rewrite length_combine; lia).
    transitivity (mean (map (fun x => u + alpha_e * x)%Q
                            (map h (combine (y_ev s) preds)))).
    + apply mean_pointwise.
      * rewrite !length_map, length_combine, length_seq, length_map. lia.
      * intros i Hi.
        rewrite length_map, length_combine, length_seq, length_map in Hi.
        assert (Hin : (i < n_rounds_ev s)%nat) by lia.
        rewrite (nth_combine_seq _ _ _ i (Z.to_nat 0)) by (rewrite ?length_map; lia).
        cbn [fst snd data expand_dims]. rewrite (map_nth Z.to_nat).
        rewrite Forall_forall in Hrange.
        assert (Hy : 0 <= nth i (y_ev s) 0 < Z.of_nat (n_actions d))
          by (apply Hrange, nth_In; lia).
        rewrite nth_concat_uniform by (auto; lia).
        destruct (Hrows i Hin) as ([_ Hcell] & _).
        rewrite Hcell by lia. rewrite Z2Nat.id by lia.
        rewrite map_map.
        set (k := fun tp : Z * Z => (u + alpha_e * h tp)%Q).
        rewrite (nth_indep _ 0%Q (k (0, 0))) by (rewrite length_map; lia).
        rewrite map_nth, combine_nth by lia.
        unfold k, h. cbn [fst snd]. fold u.
        destruct (nth i (y_ev s) 0 =? nth i preds 0); ring.
    + unfold accuracy_score. fold h. rewrite mean_map_affine.
      * ring.
      * intros Hnil. apply map_eq_nil in Hnil. rewrite Hnil in Hcomb.
        simpl in Hcomb. lia.
Qed.

Lemma policy_value_of_mixture_example :
  exists action_dist v,
    obtain_action_dist_by_eval_policy example_dataset None (PyFloat 0)
    = Ok action_dist /\
    calc_ground_truth_policy_value example_dataset (PyNdarray action_dist) = Ok v /\
    (v == 1 # 2)%Q.
Proof.
  destruct (policy_value_of_mixture lcg example_dataset example_split None 0%Q
              example_dataset_reachable lcg_shuffles eq_refl
              ltac:(discriminate) example_classifier_contract
              ltac:(discriminate) ltac:(discriminate))
    as (ad & v & H1 & _ & H3 & H4).
  exists ad, v. split; [exact H1|]. split; [exact H3|].
  rewrite H4. reflexivity.
Defined.

Lemma qsum_bounds (l : list Q) :
  Forall (fun q => 0 <= q /\ q <= 1)%Q l ->
  (0 <= qsum l)%Q /\ (qsum l <= of_nat (length l))%Q.
Proof.
  induction 1 as [|q t [Hq0 Hq1] _ [IH0 IH1]].
  - simpl. change (of_nat 0) with 0%Q. split; apply Qle_refl.
  - simpl qsum. simpl length. rewrite of_nat_succ. split; lra.
Qed.

Lemma mean_bounds (l : list Q) :
  Forall (fun q => 0 <= q /\ q <= 1)%Q l -> (0 <= mean l)%Q /\ (mean l <= 1)%Q.
Proof.
  intros Hl. destruct (qsum_bounds l Hl) as [H0 H1]. unfold mean.
  destruct l as [|x t].
  - split; discriminate.
  - pose proof (of_nat_pos (length (x :: t)) ltac:(discriminate)) as Hpos.
    split.
    + apply Qle_shift_div_l; [exact Hpos | lra].
    + apply Qle_shift_div_r; [exact Hpos | lra].
Qed.

(** X12: on a reachable state, an array of shape
    [(n_rounds_ev, n_actions, 1)] whose entries all lie in [0, 1] is
    accepted by the ground-truth evaluation and its value lies in
    [0, 1]. *)
Theorem ground_truth_is_a_probability (G : Generator) (d : Dataset)
  (s : SplitState) (a : ndarray) :
  reachable G d -> split_state d = Some s ->
  shape a = [n_rounds_ev s; n_actions d; 1%nat] ->
  length (data a) = (n_rounds_ev s * n_actions d)%nat ->
  Forall (fun q => 0 <= q /\ q <= 1)%Q (data a) ->
  exists v,
    calc_ground_truth_policy_value d (PyNdarray a) = Ok v /\
    (0 <= v)%Q /\ (v <= 1)%Q.
Proof.
  intros Hr Hs Hsh Hdata Hent.
  pose proof (reachable_invariant d Hr) as Hinv.
  rewrite (ground_truth_value d s a Hinv Hs Hsh Hdata).
  eexists. split; [reflexivity|].
  apply mean_bounds. apply Forall_map, Forall_forall. intros il _.
  destruct (nth_in_or_default (fst il * n_actions d + snd il) (data a) 0%Q) as [Hin | ->].
  - rewrite Forall_forall in Hent. now apply Hent.
  - split; discriminate.
Qed.

Lemma ground_truth_is_a_probability_example :
  exists v,
    calc_ground_truth_policy_value example_dataset
      (PyNdarray two_rows_distribution)
    = Ok v /\ (0 <= v)%Q /\ (v <= 1)%Q.
Proof.
  apply (ground_truth_is_a_probability lcg example_dataset example_split).
  - exact example_dataset_reachable.
  - reflexivity.
  - reflexivity.
  - reflexivity.
  - repeat constructor; discriminate.
Defined.

(** ** The evaluation-policy synthesizer *)

(** X13: the outcomes of [obtain_action_dist_by_eval_policy], in the order
    the method checks.  An [alpha_e] that is not a float in [0, 1] raises
    [ValueError], whatever the classifier and the state; otherwise a supplied
    object that is not a classifier raises [AssertionError]; otherwise a
    state without split raises [AttributeError]; otherwise, on a reachable
    state and with a classifier that keeps its contract, an array is
    returned. *)
Theorem eval_policy_outcomes (G : Generator) (d : Dataset)
  (base_classifier_e : option Estimator) (alpha_e : pynum) :
  let alpha_ok := exists a, alpha_e = PyFloat a /\ (0 <= a)%Q /\ (a <= 1)%Q in
  let clf_ok := forall c, base_classifier_e = Some c -> is_classifier c = true in
  let clf := match base_classifier_e with
             | None => base_classifier_b d
             | Some c => c
             end in
  (~ alpha_ok ->
   obtain_action_dist_by_eval_policy d base_classifier_e alpha_e = Raise ValueError) /\
  (alpha_ok -> ~ clf_ok ->
   obtain_action_dist_by_eval_policy d base_classifier_e alpha_e
   = Raise AssertionError) /\
  (alpha_ok -> clf_ok -> split_state d = None ->
   obtain_action_dist_by_eval_policy d base_classifier_e alpha_e
   = Raise AttributeError) /\
  (alpha_ok -> clf_ok -> reachable G d ->
   forall s, split_state d = Some s -> predicts_training_labels clf s ->
   exists action_dist,
     obtain_action_dist_by_eval_policy d base_classifier_e alpha_e = Ok action_dist).
Proof.
  intros alpha_ok clf_ok clf.
  assert (Halpha : alpha_ok ->
    obtain_action_dist_by_eval_policy d base_classifier_e alpha_e
    = (c <- match base_classifier_e with
            | None => Ok (base_classifier_b d)
            | Some c => if is_classifier c then Ok c else Raise AssertionError
            end ;;
       match split_state d with
       | None => Raise AttributeError
       | Some s =>
           pi_e <- evaluation_policy d s c
                     match alpha_e with PyFloat a => a | PyInt _ => 0%Q end ;;
           Ok (expand_dims (n_rounds_ev s) (n_actions d) pi_e)
       end)).
  { intros (a & -> & H0 & H1). unfold obtain_action_dist_by_eval_policy.
    apply Qle_bool_iff in H0, H1. now rewrite H0, H1. }
  assert (Hclf : clf_ok ->
    match base_classifier_e with
    | None => Ok (base_classifier_b d)
    | Some c => if is_classifier c then Ok c else Raise AssertionError
    end = Ok clf).
  { intros H. subst clf. destruct base_classifier_e as [c|]; [|reflexivity].
    now rewrite (H c eq_refl). }
  split; [|split; [|split]].
  - intros Hn. unfold obtain_action_dist_by_eval_policy.
    destruct alpha_e as [z|a]; [reflexivity|].
    destruct (Qle_bool 0 a) eqn:E0; [|reflexivity].
    destruct (Qle_bool a 1) eqn:E1; [|reflexivity].
    exfalso. apply Hn. exists a. apply Qle_bool_iff in E0, E1. auto.
  - intros Ha Hn. rewrite (Halpha Ha).
    destruct base_classifier_e as [c|].
    + destruct (is_classifier c) eqn:E; [|reflexivity].
      exfalso. apply Hn. intros c' [= <-]. exact E.
    + exfalso. apply Hn. discriminate.
  - intros Ha Hc Hs. rewrite (Halpha Ha), (Hclf Hc). simpl. now rewrite Hs.
  - intros Ha Hc Hr s Hs Hcontract. rewrite (Halpha Ha), (Hclf Hc). simpl.
    rewrite Hs. destruct Ha as (a & -> & H0 & H1).
    pose proof (reachable_invariant d Hr) as Hinv.
    destruct (predictions_in_range d s clf Hinv Hs Hcontract) as [Hplen Hprange].
    destruct (mixed_policy_spec _ _ a _ (n_actions_nonzero d Hinv) Hplen Hprange
                (conj H0 H1)) as (pi_e & E & _).
    change (evaluation_policy d s clf a = Ok pi_e) in E. rewrite E. simpl. eauto.
Qed.

(** ** Rewards when the labels are their own ranks *)

(** X14: when the labels given to the constructor are already the dense
    ranks [0 .. k-1] (re-indexing leaves them unchanged), every dictionary
    sampled after a split has [reward[i] = 1] exactly when [action[i]] is
    the label of evaluation row [i], and 0 otherwise. *)
Theorem reward_matches_label_for_dense_labels (G : Generator) (X0 : matrix)
  (y0 : list Z) (clf : Estimator) (alpha eval_size : pynum)
  (seed1 seed2 : option Z) (g g1 g2 : RandomState G) (d0 d : Dataset)
  (s : SplitState) (fb : Feedback.t) :
  post_init X0 y0 clf alpha = Ok d0 -> reindex y0 = y0 ->
  split_train_eval d0 eval_size seed1 g = (Ok d, g1) ->
  split_state d = Some s ->
  obtain_batch_bandit_feedback d seed2 g1 = (Ok fb, g2) ->
  forall i, (i < n_rounds_ev s)%nat ->
    nth i (Feedback.reward fb) 0%Q
    = if nth i (Feedback.action fb) 0 =? nth i (y_ev s) 0 then 1%Q else 0%Q.
Proof.
  intros Hinit Hdense Hsplit Hs Hfb i Hi.
  pose proof (fun k a => y_full_one_hot_of_dense_labels X0 y0 clf alpha d0 k a
                           Hinit Hdense) as Hcell.
  apply split_train_eval_Ok in Hsplit.
  destruct Hsplit as (s' & itr & ite & -> & Hn & _ & Hxev & _ & Hyev & Hfev).
  simpl in Hs. assert (s' = s) by congruence. subst s'. clear Hs.
  apply obtain_batch_bandit_feedback_Ok in Hfb.
  destruct Hfb as (s' & pi_b & r & Hs' & _ & L & F). simpl in Hs'.
  assert (s' = s) by congruence. subst s'. clear Hs'.
  destruct (sample_feedback _ s pi_b r) as [res r'] eqn:SF. simpl in F. subst res.
  destruct (sample_feedback_Ok G _ s pi_b r r' fb L SF)
    as (_ & _ & _ & _ & _ & _ & _ & Hrows).
  destruct (Hrows i Hi) as (Ha & -> & _).
  change (n_actions _) with (n_actions d0) in Ha.
  assert (Hlen : (i < length ite)%nat).
  { apply take_Ok in Hxev. destruct Hxev as [Hl _]. lia. }
  pose proof (take_nth _ _ _ 0 i Hyev Hlen) as Hy.
  pose proof (take_nth _ _ _ [] i Hfev Hlen) as Hf.
  assert (Hk : (nth i ite O < n_rounds d0)%nat).
  { unfold n_rounds. apply nth_error_Some. congruence. }
  rewrite <- (nth_error_nth _ _ 0 Hy), <- (nth_error_nth _ _ [] Hf).
  rewrite Hcell by (assumption || lia).
  now rewrite Z2Nat.id by lia.
Qed.

Lemma reward_matches_label_for_dense_labels_example :
  reindex [0; 1; 0; 1] = [0; 1; 0; 1] /\
  exists fb g',
    obtain_batch_bandit_feedback (G := lcg) example_dataset (Some 3) 0 = (Ok fb, g') /\
    nth 0 (Feedback.reward fb) 0%Q
    = if nth 0 (Feedback.action fb) 0 =? nth 0 (y_ev example_split) 0
      then 1%Q else 0%Q.
Proof.
  split; [reflexivity|].
  destruct (obtain_batch_bandit_feedback_total lcg lcg_uniform_draws example_dataset
              example_split (Some 3) 0 example_dataset_reachable eq_refl
              example_classifier_contract eq_refl) as (fb & g' & E).
  exists fb, g'. split; [exact E|].
  exact (reward_matches_label_for_dense_labels lcg four_rows [0; 1; 0; 1]
           first_label_classifier (PyFloat (4 # 5)) (PyInt 2) (Some 7) (Some 3)
           0 0 g' example_constructed example_dataset example_split fb
           example_constructed_init eq_refl example_dataset_split eq_refl E
           O ltac:(simpl; lia)).
Defined.

(** ** Seeds of the split, and the whole pipeline *)

(** X15: a successful split without a seed advances the process-wide
    generator by one [permutation] call; with an integer seed it leaves the
    generator untouched and yields the same partition whatever the
    generator's state. *)
Theorem split_seed_and_generator (G : Generator) (d d' : Dataset)
  (eval_size : pynum) (seed : option Z) (g g' : RandomState G) :
  split_train_eval d eval_size seed g = (Ok d', g') ->
  g' = match seed with
       | None => snd (permutation G g (length (X d)))
       | Some _ => g
       end /\
  forall z (g2 : RandomState G), seed = Some z ->
    split_train_eval d eval_size seed g2 = (Ok d', g2).
Proof.
  intros H. split.
  - apply split_train_eval_inv in H.
    destruct H as (ntr & nte & r & s & _ & _ & Hg & _).
    destruct seed; now injection Hg as _ ->.
  - intros z g2 ->. revert H. unfold split_train_eval.
    destruct (validate_shuffle_split _ _) as [[ntr nte]|e]; [|discriminate].
    unfold with_random_state. destruct (valid_seed z); [|discriminate].
    now intros [= -> _].
Qed.

Lemma split_seed_and_generator_example :
  split_train_eval (G := lcg) example_constructed (PyInt 2) (Some 7) 42
  = (Ok example_dataset, 42).
Proof.
  destruct (split_seed_and_generator lcg example_constructed example_dataset
              (PyInt 2) (Some 7) 0 0 example_dataset_split) as [_ H].
  exact (H 7 42 eq_refl).
Defined.




(** ** Row order of the evaluation partition *)

Lemma qsum_Permutation (l1 l2 : list Q) :
  Permutation l1 l2 -> (qsum l1 == qsum l2)%Q.
Proof.
  induction 1; simpl; lra.
Qed.

Lemma nth_slice (start len j : nat) (l : list Q) :
  (j < len)%nat ->
  nth j (slice start len l) 0%Q = nth (start + j) l 0%Q.
Proof.
  intros Hj. unfold slice. rewrite nth_firstn.
  destruct (Nat.ltb_spec j len); [|lia]. apply nth_skipn.
Qed.

Lemma slice_length (start len : nat) (l : list Q) :
  (start + len <= length l)%nat -> length (slice start len l) = len.
Proof.
  intros H. unfold slice. rewrite length_firstn, length_skipn. lia.
Qed.

(** The value computed on any state whose evaluation labels are as many as
    its rows and are valid columns. *)
Lemma ground_truth_value_of_labels (d : Dataset) (s : SplitState) (a : ndarray) :
  split_state d = Some s ->
  length (y_ev s) = n_rounds_ev s ->
  Forall (fun v => 0 <= v < Z.of_nat (n_actions d)) (y_ev s) ->
  shape a = [n_rounds_ev s; n_actions d; 1%nat] ->
  length (data a) = (n_rounds_ev s * n_actions d)%nat ->
  calc_ground_truth_policy_value d (PyNdarray a)
  = Ok (mean (map (fun il : nat * nat =>
                     nth (fst il * n_actions d + snd il) (data a) 0%Q)
                  (combine (seq 0 (n_rounds_ev s)) (map Z.to_nat (y_ev s))))).
Proof.
  intros Hs Hlen Hrange Hsh Hdata.
  unfold calc_ground_truth_policy_value, ndim. rewrite Hs, Hsh. simpl.
  rewrite Nat.eqb_refl. simpl.
  now rewrite (get_cells3_one_position a _ _ _ Hsh Hdata Hlen Hrange).
Qed.

(** X17: the ground truth does not depend on the order of the evaluation
    rows.  Rearranging the evaluation labels and the rows of the action
    distribution by one and the same rearrangement [sigma] of the row numbers
    leaves the value unchanged. *)
Theorem ground_truth_ignores_row_order (G : Generator) (d : Dataset)
  (s s2 : SplitState) (a : ndarray) (sigma : list nat) :
  let d2 := {| X := X d; y := y d; base_classifier_b := base_classifier_b d;
               alpha_b := alpha_b d; y_full := y_full d;
               split_state := Some s2 |} in
  let a2 := {| shape := shape a;
               data := flat_map (fun i => slice (i * n_actions d) (n_actions d)
                                            (data a)) sigma |} in
  reachable G d -> split_state d = Some s ->
  shape a = [n_rounds_ev s; n_actions d; 1%nat] ->
  length (data a) = (n_rounds_ev s * n_actions d)%nat ->
  Permutation sigma (seq 0 (n_rounds_ev s)) ->
  n_rounds_ev s2 = n_rounds_ev s ->
  y_ev s2 = map (fun i => nth i (y_ev s) 0) sigma ->
  exists v v2,
    calc_ground_truth_policy_value d (PyNdarray a) = Ok v /\
    calc_ground_truth_policy_value d2 (PyNdarray a2) = Ok v2 /\
    (v == v2)%Q.
Proof.
  intros d2 a2 Hr Hs Hsh Hdata Hperm Hn2 Hy2.
  pose proof (reachable_invariant d Hr) as Hinv.
  destruct (labels_in_range d s Hinv Hs) as [Hlen Hrange].
  set (n := n_rounds_ev s) in *. set (c := n_actions d) in *.
  assert (Hsl : length sigma = n)
    by (rewrite (Permutation_length Hperm); apply length_seq).
  assert (Hslt : Forall (fun i => (i < n)%nat) sigma).
  { apply Forall_forall. intros i Hi.
    apply (Permutation_in _ Hperm) in Hi. apply in_seq in Hi. lia. }
  assert (Hc2 : n_actions d2 = c) by reflexivity.
  assert (Hlen2 : length (y_ev s2) = n_rounds_ev s2)
    by (rewrite Hy2, length_map; lia).
  assert (Hrange2 : Forall (fun v => 0 <= v < Z.of_nat (n_actions d2)) (y_ev s2)).
  { rewrite Hy2, Hc2. apply Forall_map. eapply Forall_impl; [|exact Hslt].
    intros i Hi. cbv beta in Hi. rewrite Forall_forall in Hrange.
    apply Hrange, nth_In. lia. }
  set (rows := map (fun i => slice (i * c) c (data a)) sigma).
  assert (Hrows : Forall (fun r => length r = c) rows).
  { unfold rows. apply Forall_map. eapply Forall_impl; [|exact Hslt].
    intros i Hi. cbv beta in Hi. apply slice_length. nia. }
  assert (Hdata2 : data a2 = concat rows)
    by (unfold a2, rows; simpl; apply flat_map_concat_map).
  assert (Hrl : length rows = n) by (unfold rows; now rewrite length_map).
  rewrite (ground_truth_value_of_labels d s a Hs Hlen Hrange Hsh Hdata).
  rewrite (ground_truth_value_of_labels d2 s2 a2 eq_refl Hlen2 Hrange2).
  2:{ unfold a2. simpl. rewrite Hsh, Hn2. reflexivity. }
  2:{ rewrite Hdata2, (concat_uniform_length _ _ Hrows), Hrl, Hn2, Hc2. reflexivity. }
  eexists. eexists. split; [reflexivity|]. split; [reflexivity|].
  rewrite Hn2, Hc2. fold n c.
  set (w := fun k : nat => nth (k * c + Z.to_nat (nth k (y_ev s) 0)) (data a) 0%Q).
  unfold mean.
  assert (H1 : (qsum (map (fun il : nat * nat => nth (fst il * c + snd il) (data a) 0%Q)
                          (combine (seq 0 n) (map Z.to_nat (y_ev s))))
                == qsum (map w (seq 0 n)))%Q).
  { apply qsum_pointwise.
    - rewrite !length_map, length_combine, length_seq, length_map. lia.
    - intros i Hi.
      rewrite length_map, length_combine, length_seq, length_map in Hi.
      rewrite (nth_combine_seq _ _ _ i (Z.to_nat 0)) by (rewrite ?length_map; lia).
      cbn [fst snd]. rewrite (map_nth Z.to_nat).
      rewrite (nth_indep (map w (seq 0 n)) 0%Q (w O))
        by (rewrite length_map, length_seq; lia).
      rewrite map_nth, seq_nth by lia. reflexivity. }
  assert (H2 : (qsum (map (fun il : nat * nat => nth (fst il * c + snd il) (data a2) 0%Q)
                          (combine (seq 0 n) (map Z.to_nat (y_ev s2))))
                == qsum (map w sigma))%Q).
  { apply qsum_pointwise.
    - rewrite !length_map, length_combine, length_seq, length_map. lia.
    - intros i Hi.
      rewrite length_map, length_combine, length_seq, length_map in Hi.
      assert (Hin : (i < n)%nat) by lia.
      rewrite (nth_combine_seq _ _ _ i (Z.to_nat 0)) by (rewrite ?length_map; lia).
      cbn [fst snd]. rewrite (map_nth Z.to_nat).
      rewrite Forall_forall in Hrange2.
      assert (Hy : 0 <= nth i (y_ev s2) 0 < Z.of_nat c)
        by (rewrite <- Hc2; apply Hrange2, nth_In; lia).
      rewrite Hdata2, nth_concat_uniform by (auto; lia).
      unfold rows.
      set (fr := fun k : nat => slice (k * c) c (data a)).
      rewrite (nth_indep (map fr sigma) [] (fr O)) by (rewrite length_map; lia).
      rewrite map_nth. unfold fr. rewrite nth_slice by lia.
      rewrite (nth_indep (map w sigma) 0%Q (w O)) by (rewrite length_map; lia).
      rewrite map_nth. unfold w.
      rewrite Hy2.
      set (fy := fun k : nat => nth k (y_ev s) 0).
      rewrite (nth_indep (map fy sigma) 0 (fy O)) by (rewrite length_map; lia).
      rewrite map_nth. reflexivity. }
  rewrite H1, H2, (qsum_Permutation _ _ (Permutation_map w Hperm)).
  rewrite !length_map, !length_combine, !length_seq, !length_map.
  rewrite Hlen, Hlen2, Hn2. reflexivity.
Qed.

Lemma ground_truth_ignores_row_order_example :
  exists v v2,
    calc_ground_truth_policy_value example_dataset (PyNdarray two_rows_distribution)
    = Ok v /\
    calc_ground_truth_policy_value
      {| X := X example_dataset; y := y example_dataset;
         base_classifier_b := base_classifier_b example_dataset;
         alpha_b := alpha_b example_dataset; y_full := y_full example_dataset;
         split_state := Some swapped_split |}
      (PyNdarray {| shape := [2; 2; 1]%nat; data := [1%Q; 0%Q; 1 # 4; 3 # 4] |})
    = Ok v2 /\
    (v == v2)%Q.
Proof.
  apply (ground_truth_ignores_row_order lcg example_dataset example_split
           swapped_split two_rows_distribution [1; 0]%nat).
  - exact example_dataset_reachable.
  - reflexivity.
  - reflexivity.
  - reflexivity.
  - apply perm_swap.
  - reflexivity.
  - reflexivity.
Defined.
